(** * isp-monitor: ICMP prober and statistics aggregator

    A shallow embedding of [monitor.go].  The file holds two generations of
    the hand-written prober:

    - [Monitor]: the generation built around [sendPing] / [receivePing]
      and the global counter [seq];
    - [Legacy]: the older generation with the inline [pingLoop] /
      [readLoop] and the counter [icmpBody.Seq].

    (The third generation delegates probing and statistics to the pro-bing
    library and has no logic of its own to embed.)

    Conventions.  Go's [int], [int64] and [time.Duration] are 64-bit signed
    integers: they are modelled as [Z] with the wrap-around written out
    ([Go.wrap64]).  [time.Time] is a [Z] count of nanoseconds.  [float64] is
    Rocq's primitive binary64 float.  Calls into the socket and into the
    icmp library are recorded in a call log; what the network answers is an
    explicit environment argument. *)

From Stdlib Require Import ZArith List Bool String Floats Lia.
Import ListNotations.
Open Scope Z_scope.

(* ================================================================== *)
(** ** Go arithmetic, durations and floats *)

Module Go.

Definition MaxInt64 : Z := 2 ^ 63 - 1.
Definition MinInt64 : Z := - 2 ^ 63.

(** Two's-complement wrap-around of 64-bit signed arithmetic. *)
Definition wrap64 (z : Z) : Z := (z + 2 ^ 63) mod 2 ^ 64 - 2 ^ 63.

Definition add64 (a b : Z) : Z := wrap64 (a + b).
Definition sub64 (a b : Z) : Z := wrap64 (a - b).
Definition mul64 (a b : Z) : Z := wrap64 (a * b).
(** Go's integer [/] truncates toward zero. *)
Definition quot64 (a b : Z) : Z := wrap64 (Z.quot a b).

(** [time.Duration] units, in nanoseconds. *)
Definition Microsecond : Z := 1000.
Definition Millisecond : Z := 1000000.

(** [t.Sub(u)]: the difference, saturated to the range of a Duration. *)
Definition time_Sub (t u : Z) : Z :=
  let d := t - u in
  if d <? MinInt64 then MinInt64
  else if MaxInt64 <? d then MaxInt64
  else d.

(** The conversion [float64(n)] of a 64-bit integer: round to nearest even. *)
Definition float64 (z : Z) : float :=
  SF2Prim (binary_normalize 53 1024 z 0 false).

End Go.

(* ================================================================== *)
(** ** What the program uses of [os], [context], [net] and [icmp] *)

Module Icmp.

Inductive error : Type :=
| ErrNoDeadline                     (* os.ErrNoDeadline *)
| ErrDeadlineExceeded               (* os.ErrDeadlineExceeded *)
| ContextDeadlineExceeded           (* context.DeadlineExceeded *)
| OtherError (msg : string).

(** [errors.Is(err, os.ErrDeadlineExceeded) || errors.Is(err, context.DeadlineExceeded)] *)
Definition isDeadlineExceeded (e : error) : bool :=
  match e with
  | ErrDeadlineExceeded | ContextDeadlineExceeded => true
  | _ => false
  end.

Inductive ICMPType : Type :=
| ICMPTypeEcho
| ICMPTypeEchoReply
| ICMPTypeOther (n : Z).

Definition isEchoReply (t : ICMPType) : bool :=
  match t with ICMPTypeEchoReply => true | _ => false end.

Record Echo : Type := { ID : Z; Seq : Z; Data : list Z }.

(** [icmp.Message]; the field [Type] is spelled [MsgType]. *)
Record Message : Type := { MsgType : ICMPType; Code : Z; Body : option Echo }.

(** The two library functions the prober calls.  They are pure functions of
    their arguments and belong to golang.org/x/net/icmp, so the embedding
    takes them as an interface. *)
Class Library : Type := {
  Marshal : Message -> list Z + error;
  ParseMessage : Z -> list Z -> Message + error
}.

(** How a call ends: it returns, the process leaves through [os.Exit]
    (deferred functions do not run), or the runtime panics. *)
Inductive Result (A : Type) : Type :=
| Returned (a : A)
| Exited (code : Z)
| Panicked.
Arguments Returned {A} a.
Arguments Exited {A} code.
Arguments Panicked {A}.

(** Calls made on the connection and on the icmp library, in order. *)
Inductive Call : Type :=
| CallMarshal (msg : Message)
| CallSetWriteDeadline (deadline : Z)
| CallWriteTo (req : list Z) (target : string)
| CallSetReadDeadline (deadline : Z)
| CallReadFrom
| CallListenPacket.

(** What [con.ReadFrom] answers: a datagram and its source, or an error. *)
Inductive ReadResult : Type :=
| ReadOk (data : list Z) (addr : string)
| ReadFail (e : error).

(** [ReadFrom] copies the datagram over the front of the buffer. *)
Fixpoint readInto (data buf : list Z) : list Z :=
  match data, buf with
  | d :: data', _ :: buf' => d :: readInto data' buf'
  | _, _ => buf
  end.

(** The number of bytes [ReadFrom] reports. *)
Definition numBytes (data buf : list Z) : nat :=
  Nat.min (List.length data) (List.length buf).

(** [flushBuf]: [for pos := 0; pos < len; pos++ { buf[pos] = 0 }].  The
    program calls it with the byte count [ReadFrom] returned, which is
    within the buffer; for a [len] beyond the buffer the Go loop panics, a
    case the embedding does not reach. *)
Fixpoint flushBuf (buf : list Z) (len : nat) : list Z :=
  match len, buf with
  | S k, _ :: rest => 0 :: flushBuf rest k
  | _, _ => buf
  end.

(** [(int(buf[6]) << 8) | int(buf[7])] *)
Definition rxSeqNumOf (buf : list Z) : Z :=
  Z.lor (Z.shiftl (nth 6 buf 0) 8) (nth 7 buf 0).

(** The messages handed to [Marshal], read off a call log in order: the
    echo requests the prober built. *)
Fixpoint requests (cs : list Call) : list Message :=
  match cs with
  | [] => []
  | CallMarshal m :: rest => m :: requests rest
  | _ :: rest => requests rest
  end.

(** The number of [ReadFrom] calls in a call log. *)
Fixpoint readCount (cs : list Call) : nat :=
  match cs with
  | [] => O
  | CallReadFrom :: rest => S (readCount rest)
  | _ :: rest => readCount rest
  end.

(** The number of [icmp.ListenPacket] calls in a call log. *)
Fixpoint listenCount (cs : list Call) : nat :=
  match cs with
  | [] => O
  | CallListenPacket :: rest => S (listenCount rest)
  | _ :: rest => listenCount rest
  end.

(** Whether a call may follow the call [prev]: a write needs the write
    deadline set by the call just before it, a read the read deadline. *)
Definition mayFollow (prev : option Call) (c : Call) : bool :=
  match c with
  | CallWriteTo _ _ =>
      match prev with Some (CallSetWriteDeadline _) => true | _ => false end
  | CallReadFrom =>
      match prev with Some (CallSetReadDeadline _) => true | _ => false end
  | _ => true
  end.

(** A call log in which every [WriteTo] and every [ReadFrom] comes right
    after the matching deadline was set. *)
Fixpoint deadlineGuarded (prev : option Call) (cs : list Call) : bool :=
  match cs with
  | [] => true
  | c :: rest => mayFollow prev c && deadlineGuarded (Some c) rest
  end.

(** The last call of [cs], or [prev] when [cs] is empty. *)
Definition lastCall (prev : option Call) (cs : list Call) : option Call :=
  fold_left (fun _ c => Some c) cs prev.

(** A buffer that holds only zero bytes. *)
Definition zeroed (b : list Z) : Prop := b = repeat 0 (List.length b).

End Icmp.

(* ================================================================== *)
(** ** The [sendPing] / [receivePing] generation *)

Module Monitor.
Import Go Icmp.

Record packetUpdate : Type := {
  received : bool;
  seqNumber : Z;
  rttStart : Z;
  rttStop : Z
}.

(** *** Aggregator goroutine *)

(** The six local variables of the aggregator goroutine. *)
Record AggState : Type := {
  droppedPacketsCounter : Z;
  totalPacketsCounter : Z;
  rttMin : Z;
  rttAvg : Z;
  rttAvgCnt : Z;
  rttMax : Z
}.

(** Their values when the goroutine starts. *)
Definition aggStart : AggState := {|
  droppedPacketsCounter := 0;
  totalPacketsCounter := 0;
  rttMin := MaxInt64;
  rttAvg := 0;
  rttAvgCnt := 1;
  rttMax := 0
|}.

(** [case update := <-updateChan].  The division of the mean update has a
    divisor of at least 2 in every reachable window ([window_avgCnt]). *)
Definition onUpdate (update : packetUpdate) (s : AggState) : AggState :=
  let total := add64 (totalPacketsCounter s) 1 in
  if received update then
    let rtt := time_Sub (rttStop update) (rttStart update) in
    let rttMin' := if rtt <? rttMin s then rtt else rttMin s in
    let rttMax' := if rttMax s <? rtt then rtt else rttMax s in
    if rttAvg s =? 0 then
      {| droppedPacketsCounter := droppedPacketsCounter s;
         totalPacketsCounter := total;
         rttMin := rttMin'; rttAvg := rtt;
         rttAvgCnt := rttAvgCnt s; rttMax := rttMax' |}
    else
      {| droppedPacketsCounter := droppedPacketsCounter s;
         totalPacketsCounter := total;
         rttMin := rttMin';
         rttAvg := quot64 (add64 (mul64 (rttAvg s) (rttAvgCnt s)) rtt)
                          (add64 (rttAvgCnt s) 1);
         rttAvgCnt := add64 (rttAvgCnt s) 1; rttMax := rttMax' |}
  else
    {| droppedPacketsCounter := add64 (droppedPacketsCounter s) 1;
       totalPacketsCounter := total;
       rttMin := rttMin s; rttAvg := rttAvg s;
       rttAvgCnt := rttAvgCnt s; rttMax := rttMax s |}.

(** The values one flush sets on the six gauges. *)
Record Published : Type := {
  droppedPackets : float;
  totalPackets : float;
  packetLossPercentage : float;
  roundTripMin : float;
  roundTripAvg : float;
  roundTripMax : float
}.

(** [float64(d/time.Microsecond)/1000 + float64(d/time.Millisecond)/1000] *)
Definition msecFl (d : Z) : float :=
  (float64 (quot64 d Microsecond) / float64 1000
   + float64 (quot64 d Millisecond) / float64 1000)%float.

(** The minimum as the flush converts it: the start value is replaced by 0. *)
Definition flushedMin (s : AggState) : Z :=
  if rttMin s =? MaxInt64 then 0 else rttMin s.

(** [case <-ticker.C]: publish, then reset the counters. *)
Definition onTick (s : AggState) : Published * AggState :=
  ({| droppedPackets := float64 (droppedPacketsCounter s);
      totalPackets := float64 (totalPacketsCounter s);
      packetLossPercentage :=
        (float64 (droppedPacketsCounter s) / float64 (totalPacketsCounter s))%float;
      roundTripMin := msecFl (flushedMin s);
      roundTripAvg := msecFl (rttAvg s);
      roundTripMax := msecFl (rttMax s) |},
   {| droppedPacketsCounter := 0;
      totalPacketsCounter := 0;
      rttMin := MaxInt64;
      rttAvg := 0;
      rttAvgCnt := 1;
      rttMax := 0 |}).

(** What the [select] picks in one iteration. *)
Inductive AggInput : Type :=
| Update (u : packetUpdate)
| Tick.

(** The [for { select { ... } }] loop over a given interleaving; returns the
    snapshots published, oldest first, and the final accumulator. *)
Fixpoint aggregator (inputs : list AggInput) (s : AggState)
  : list Published * AggState :=
  match inputs with
  | [] => ([], s)
  | Update u :: rest => aggregator rest (onUpdate u s)
  | Tick :: rest =>
      let '(p, s') := onTick s in
      let '(ps, s'') := aggregator rest s' in
      (p :: ps, s'')
  end.

(** A window that consumes the events [us] and no tick. *)
Definition window (us : list packetUpdate) (s : AggState) : AggState :=
  fold_left (fun acc u => onUpdate u acc) us s.

Definition countReceived (us : list packetUpdate) : Z :=
  Z.of_nat (List.length (filter received us)).

(** *** Prober: [sendPing], [receivePing] and the loop of [main] *)

(** The global [seq], the receive buffer [buf] of [main], the calls made
    so far and the events sent on [updateChan] (oldest first). *)
Record State : Type := {
  seq : Z;
  rcvBuf : list Z;
  calls : list Call;
  updateChan : list packetUpdate
}.

Definition withSeq (n : Z) (st : State) : State :=
  {| seq := n; rcvBuf := rcvBuf st; calls := calls st;
     updateChan := updateChan st |}.

Definition withBuf (b : list Z) (st : State) : State :=
  {| seq := seq st; rcvBuf := b; calls := calls st;
     updateChan := updateChan st |}.

Definition logCall (c : Call) (st : State) : State :=
  {| seq := seq st; rcvBuf := rcvBuf st; calls := calls st ++ [c];
     updateChan := updateChan st |}.

Definition chanSend (u : packetUpdate) (st : State) : State :=
  {| seq := seq st; rcvBuf := rcvBuf st; calls := calls st;
     updateChan := updateChan st ++ [u] |}.

(** The state in which [main] enters its loop: [seq = 0], a zeroed buffer
    of 1500 bytes, the listener opened. *)
Definition mainStart : State :=
  {| seq := 0; rcvBuf := repeat 0 1500%nat; calls := [CallListenPacket];
     updateChan := [] |}.

(** What the connection answers to the calls of one [sendPing]. *)
Record SendEnv : Type := {
  setWriteDeadlineErr : option error;
  writeToErr : option error
}.

(** What the connection answers to the calls of one [receivePing]. *)
Record RecvEnv : Type := {
  setReadDeadlineErr : option error;
  readFromRes : ReadResult
}.

(** [&icmp.Message{Type: ipv4.ICMPTypeEcho, Code: 0, Body: &icmp.Echo{Seq: seq}}] *)
Definition echoRequest (s : Z) : Message :=
  {| MsgType := ICMPTypeEcho; Code := 0;
     Body := Some {| ID := 0; Seq := s; Data := [] |} |}.

(** [defer func() {seq++}()] *)
Definition deferredIncr (st : State) : State :=
  withSeq (add64 (seq st) 1) st.

Section Prober.
Context {lib : Library}.

(** [sendPing(con, context, target)]; [ctx] is what [context.Deadline()]
    answers. *)
Definition sendPing (ctx : option Z) (env : SendEnv) (target : string)
    (st : State) : Result (option error) * State :=
  match ctx with
  | None => (Returned (Some ErrNoDeadline), st)
  | Some deadline =>
      let st := if seq st =? 65536 then withSeq 0 st else st in
      let msg := echoRequest (seq st) in
      let st := logCall (CallMarshal msg) st in
      match Marshal msg with
      | inr _ => (Exited 1, st)
      | inl req =>
          let st := logCall (CallSetWriteDeadline deadline) st in
          match setWriteDeadlineErr env with
          | Some e => (Returned (Some e), deferredIncr st)
          | None =>
              let st := logCall (CallWriteTo req target) st in
              match writeToErr env with
              | Some e => (Returned (Some e), deferredIncr st)
              | None => (Returned None, deferredIncr st)
              end
          end
      end
  end.

(** The four-way test of [receivePing] on the buffer [buf] just read. *)
Definition replyMatches (buf : list Z) (addr target : string) (st : State)
  : bool :=
  match ParseMessage 1 buf with
  | inl receivedMessage =>
      isEchoReply (MsgType receivedMessage)
      && String.eqb addr target
      && (sub64 (seq st) 1 =? rxSeqNumOf buf)
  | inr _ => false
  end.

(** [receivePing(con, context, rcvBuf, target)]. *)
Definition receivePing (ctx : option Z) (env : RecvEnv) (target : string)
    (st : State) : Result (bool * option error) * State :=
  match ctx with
  | None => (Returned (false, Some ErrNoDeadline), st)
  | Some deadline =>
      let st := logCall (CallSetReadDeadline deadline) st in
      match setReadDeadlineErr env with
      | Some e => (Returned (false, Some e), st)
      | None =>
          let st := logCall CallReadFrom st in
          match readFromRes env with
          | ReadFail e => (Returned (false, Some e), st)
          | ReadOk data addr =>
              let numBytesReceived := numBytes data (rcvBuf st) in
              let buf := readInto data (rcvBuf st) in
              if (List.length buf <? 8)%nat then (Panicked, withBuf buf st)
              else
                let ok := replyMatches buf addr target st in
                let st := withBuf (flushBuf buf numBytesReceived) st in
                if ok then (Returned (true, None), st)
                else (Returned (false, None), st)
          end
      end
  end.

(** The clock readings and connection answers of one iteration of the
    [for] loop of [main]. *)
Record CycleEnv : Type := {
  nowCtx : Z;
  nowStart : Z;
  sendEnv : SendEnv;
  listenErr : option error;
  recvEnv : RecvEnv;
  nowStop : Z
}.

(** One iteration of the [for] loop of [main]. *)
Definition cycle (icmpInterval : Z) (pingHost : string) (env : CycleEnv)
    (st : State) : Result unit * State :=
  let ctxt := Some (nowCtx env + icmpInterval) in
  let start := nowStart env in
  match sendPing ctxt (sendEnv env) pingHost st with
  | (Exited c, st) => (Exited c, st)
  | (Panicked, st) => (Panicked, st)
  | (Returned err, st) =>
      let relisten :=
        match err with Some e => isDeadlineExceeded e | None => false end in
      let st := if relisten then logCall CallListenPacket st else st in
      match relisten, listenErr env with
      | true, Some _ => (Exited 1, st)
      | _, _ =>
          match receivePing ctxt (recvEnv env) pingHost st with
          | (Exited c, st) => (Exited c, st)
          | (Panicked, st) => (Panicked, st)
          | (Returned (rcv, _), st) =>
              (Returned tt,
               chanSend {| received := rcv; seqNumber := seq st;
                           rttStart := start; rttStop := nowStop env |} st)
          end
      end
  end.

(** The loop of [main] run for as many iterations as [envs] has answers;
    it stops early when the process exits. *)
Fixpoint mainLoop (icmpInterval : Z) (pingHost : string)
    (envs : list CycleEnv) (st : State) : Result unit * State :=
  match envs with
  | [] => (Returned tt, st)
  | env :: rest =>
      match cycle icmpInterval pingHost env st with
      | (Returned _, st') => mainLoop icmpInterval pingHost rest st'
      | stop => stop
      end
  end.

End Prober.

(** The round-trip time the aggregator computes for an event. *)
Definition rttOf (u : packetUpdate) : Z :=
  time_Sub (rttStop u) (rttStart u).

(** The round-trip times of the received events of a window, in order. *)
Definition samples (us : list packetUpdate) : list Z :=
  map rttOf (filter received us).

Definition sumZ (xs : list Z) : Z := fold_right Z.add 0 xs.

(** The error [sendPing] returns once the request is marshalled: that of
    [SetWriteDeadline] if it fails, else that of [WriteTo]. *)
Definition sendError (env : SendEnv) : option error :=
  match setWriteDeadlineErr env with
  | Some e => Some e
  | None => writeToErr env
  end.

(** Whether [main] opens a new listener after [sendPing]. *)
Definition relistens (env : SendEnv) : bool :=
  match sendError env with
  | Some e => isDeadlineExceeded e
  | None => false
  end.

End Monitor.

(* ================================================================== *)
(** ** The older generation: inline [pingLoop] / [readLoop] *)

Module Legacy.
Import Go Icmp.

Record packetUpdate : Type := {
  dropped : bool;
  seqNumber : Z;
  rttStart : Z;
  rttStop : Z
}.

(** *** Aggregator goroutine *)

Record AggState : Type := {
  droppedPacketsCounter : Z;
  totalPacketsCounter : Z;
  rttMin : Z;
  rttAvg : Z;
  rttAvgCnt : Z;
  rttMax : Z
}.

Definition aggStart : AggState := {|
  droppedPacketsCounter := 0;
  totalPacketsCounter := 0;
  rttMin := MaxInt64;
  rttAvg := 0;
  rttAvgCnt := 1;
  rttMax := 0
|}.

(** [case update := <-updateChan]. *)
Definition onUpdate (update : packetUpdate) (s : AggState) : AggState :=
  let total := add64 (totalPacketsCounter s) 1 in
  if negb (dropped update) then
    let rtt := time_Sub (rttStop update) (rttStart update) in
    let rttMin' := if rtt <? rttMin s then rtt else rttMin s in
    let rttMax' := if rttMax s <? rtt then rtt else rttMax s in
    if rttAvg s =? 0 then
      {| droppedPacketsCounter := droppedPacketsCounter s;
         totalPacketsCounter := total;
         rttMin := rttMin'; rttAvg := rtt;
         rttAvgCnt := rttAvgCnt s; rttMax := rttMax' |}
    else
      {| droppedPacketsCounter := droppedPacketsCounter s;
         totalPacketsCounter := total;
         rttMin := rttMin';
         rttAvg := quot64 (add64 (mul64 (rttAvg s) (rttAvgCnt s)) rtt)
                          (add64 (rttAvgCnt s) 1);
         rttAvgCnt := add64 (rttAvgCnt s) 1; rttMax := rttMax' |}
  else
    {| droppedPacketsCounter := add64 (droppedPacketsCounter s) 1;
       totalPacketsCounter := total;
       rttMin := rttMin s; rttAvg := rttAvg s;
       rttAvgCnt := rttAvgCnt s; rttMax := rttMax s |}.

(** [case <-ticker.C]: as in [Monitor.onTick], but the minimum is converted
    as it stands, start value included. *)
Definition onTick (s : AggState) : Monitor.Published * AggState :=
  ({| Monitor.droppedPackets := float64 (droppedPacketsCounter s);
      Monitor.totalPackets := float64 (totalPacketsCounter s);
      Monitor.packetLossPercentage :=
        (float64 (droppedPacketsCounter s) / float64 (totalPacketsCounter s))%float;
      Monitor.roundTripMin := Monitor.msecFl (rttMin s);
      Monitor.roundTripAvg := Monitor.msecFl (rttAvg s);
      Monitor.roundTripMax := Monitor.msecFl (rttMax s) |},
   {| droppedPacketsCounter := 0;
      totalPacketsCounter := 0;
      rttMin := MaxInt64;
      rttAvg := 0;
      rttAvgCnt := 1;
      rttMax := 0 |}).

Inductive AggInput : Type :=
| Update (u : packetUpdate)
| Tick.

Fixpoint aggregator (inputs : list AggInput) (s : AggState)
  : list Monitor.Published * AggState :=
  match inputs with
  | [] => ([], s)
  | Update u :: rest => aggregator rest (onUpdate u s)
  | Tick :: rest =>
      let '(p, s') := onTick s in
      let '(ps, s'') := aggregator rest s' in
      (p :: ps, s'')
  end.

(** *** Prober *)

(** [icmpBody.Seq], [buf], the calls made and the events sent. *)
Record State : Type := {
  bodySeq : Z;
  buf : list Z;
  calls : list Call;
  updateChan : list packetUpdate
}.

Definition withSeq (n : Z) (st : State) : State :=
  {| bodySeq := n; buf := buf st; calls := calls st;
     updateChan := updateChan st |}.

Definition withBuf (b : list Z) (st : State) : State :=
  {| bodySeq := bodySeq st; buf := b; calls := calls st;
     updateChan := updateChan st |}.

Definition logCall (c : Call) (st : State) : State :=
  {| bodySeq := bodySeq st; buf := buf st; calls := calls st ++ [c];
     updateChan := updateChan st |}.

Definition chanSend (u : packetUpdate) (st : State) : State :=
  {| bodySeq := bodySeq st; buf := buf st; calls := calls st;
     updateChan := updateChan st ++ [u] |}.

Definition mainStart : State :=
  {| bodySeq := 0; buf := repeat 0 1500%nat; calls := [CallListenPacket];
     updateChan := [] |}.

(** [icmpMessage], whose body is the shared [icmpBody]. *)
Definition icmpMessage (st : State) : Message :=
  {| MsgType := ICMPTypeEcho; Code := 0;
     Body := Some {| ID := 0; Seq := bodySeq st; Data := [] |} |}.

(** [if icmpBody.Seq+1 == 65536 { icmpBody.Seq = 0 } else { icmpBody.Seq++ }] *)
Definition advanceSeq (st : State) : State :=
  if add64 (bodySeq st) 1 =? 65536 then withSeq 0 st
  else withSeq (add64 (bodySeq st) 1) st.

(** One turn of [readLoop]: the clock, the connection's answers, and
    whether [ticker.C] is ready when the [select] is reached. *)
Record ReadAttempt : Type := {
  nowRead : Z;
  setReadDeadlineErr : option error;
  readFromRes : ReadResult;
  tickerFired : bool
}.

(** The state in which the older [readLoop] goes on after a datagram that
    did not match. *)
Definition afterMismatch (icmpInterval : Z) (r : ReadAttempt)
    (data : list Z) (st : State) : State :=
  let st1 := logCall CallReadFrom
               (logCall
                  (CallSetReadDeadline (nowRead r + icmpInterval)) st) in
  withBuf
    (flushBuf (readInto data (buf st1)) (numBytes data (buf st1)))
    st1.

Section Prober.
Context {lib : Library}.

(** The four-way test of [readLoop] on the buffer just read. *)
Definition replyMatches (b : list Z) (addr pingHost : string) (st : State)
  : bool :=
  match ParseMessage 1 b with
  | inl receivedMessage =>
      isEchoReply (MsgType receivedMessage)
      && String.eqb addr pingHost
      && (bodySeq st =? rxSeqNumOf b)
  | inr _ => false
  end.

(** [readLoop].  [Some (Returned true)]: left through [break readLoop];
    [Some (Returned false)]: the ticker fired, a dropped event was sent;
    [None]: the loop is still reading when the answers run out. *)
Fixpoint readLoop (icmpInterval : Z) (pingHost : string)
    (reads : list ReadAttempt) (st : State)
  : option (Result bool) * State :=
  match reads with
  | [] => (None, st)
  | r :: rest =>
      let st := logCall (CallSetReadDeadline (nowRead r + icmpInterval)) st in
      match setReadDeadlineErr r with
      | Some _ => (Some (Exited 1), st)
      | None =>
          let st := logCall CallReadFrom st in
          let select (st : State) :=
            if tickerFired r then
              (Some (Returned false),
               chanSend {| dropped := true; seqNumber := bodySeq st;
                           rttStart := 0; rttStop := 0 |} st)
            else readLoop icmpInterval pingHost rest st in
          match readFromRes r with
          | ReadFail _ => select st
          | ReadOk data addr =>
              let numBytesReceived := numBytes data (buf st) in
              let b := readInto data (buf st) in
              if (List.length b <? 8)%nat then (Some Panicked, withBuf b st)
              else
                let ok := replyMatches b addr pingHost st in
                let st := withBuf (flushBuf b numBytesReceived) st in
                if ok then (Some (Returned true), st) else select st
          end
      end
  end.

(** The clock readings and connection answers of one iteration of
    [pingLoop]. *)
Record CycleEnv : Type := {
  nowWrite : Z;
  setWriteDeadlineErr : option error;
  writeToErr : option error;
  nowStart : Z;
  reads : list ReadAttempt;
  nowStop : Z
}.

(** One iteration of [pingLoop]. *)
Definition pingCycle (icmpInterval : Z) (pingHost : string) (env : CycleEnv)
    (st : State) : option (Result unit) * State :=
  let st := advanceSeq st in
  let msg := icmpMessage st in
  let st := logCall (CallMarshal msg) st in
  match Marshal msg with
  | inr _ => (Some (Exited 1), st)
  | inl icmpReq =>
      let st := logCall (CallSetWriteDeadline (nowWrite env + icmpInterval)) st in
      match setWriteDeadlineErr env with
      | Some _ => (Some (Exited 1), st)
      | None =>
          let st := logCall (CallWriteTo icmpReq pingHost) st in
          match writeToErr env with
          | Some _ => (Some (Returned tt), st)
          | None =>
              match readLoop icmpInterval pingHost (reads env) st with
              | (None, st) => (None, st)
              | (Some (Exited c), st) => (Some (Exited c), st)
              | (Some Panicked, st) => (Some Panicked, st)
              | (Some (Returned false), st) => (Some (Returned tt), st)
              | (Some (Returned true), st) =>
                  (Some (Returned tt),
                   chanSend {| dropped := false; seqNumber := bodySeq st;
                               rttStart := nowStart env;
                               rttStop := nowStop env |} st)
              end
          end
      end
  end.

(** [pingLoop] run over the answers of successive iterations. *)
Fixpoint pingLoop (icmpInterval : Z) (pingHost : string)
    (envs : list CycleEnv) (st : State) : option (Result unit) * State :=
  match envs with
  | [] => (Some (Returned tt), st)
  | env :: rest =>
      match pingCycle icmpInterval pingHost env st with
      | (Some (Returned _), st') => pingLoop icmpInterval pingHost rest st'
      | stop => stop
      end
  end.

(** The test of [readLoop] on what the attempt [r] reads into the buffer
    of [st]; a failed read passes no test. *)
Definition matchesNow (pingHost : string) (st : State) (r : ReadAttempt)
  : bool :=
  match readFromRes r with
  | ReadOk data addr => replyMatches (readInto data (buf st)) addr pingHost st
  | ReadFail _ => false
  end.

End Prober.

(** Whether an iteration got its request written. *)
Definition written (env : CycleEnv) : bool :=
  match writeToErr env with Some _ => false | None => true end.

(** The event and the accumulator of this generation read as those of the
    [sendPing] generation: [received] is [!dropped]. *)
Definition toMonitorUpdate (u : packetUpdate) : Monitor.packetUpdate :=
  {| Monitor.received := negb (dropped u);
     Monitor.seqNumber := seqNumber u;
     Monitor.rttStart := rttStart u;
     Monitor.rttStop := rttStop u |}.

Definition toMonitorAgg (s : AggState) : Monitor.AggState :=
  {| Monitor.droppedPacketsCounter := droppedPacketsCounter s;
     Monitor.totalPacketsCounter := totalPacketsCounter s;
     Monitor.rttMin := rttMin s;
     Monitor.rttAvg := rttAvg s;
     Monitor.rttAvgCnt := rttAvgCnt s;
     Monitor.rttMax := rttMax s |}.

Definition toMonitorInput (i : AggInput) : Monitor.AggInput :=
  match i with
  | Update u => Monitor.Update (toMonitorUpdate u)
  | Tick => Monitor.Tick
  end.

(** A window of the older aggregator that consumes the events [us] and no
    tick. *)
Definition window (us : list packetUpdate) (s : AggState) : AggState :=
  fold_left (fun acc u => onUpdate u acc) us s.

Definition countReceived (us : list packetUpdate) : Z :=
  Z.of_nat (List.length (filter (fun u => negb (dropped u)) us)).

End Legacy.

(* ================================================================== *)
(** ** The pro-bing generation: the metrics goroutine *)

Module ProBing.
Import Go.

(** The fields of [ping.Statistics] the goroutine reads. *)
Record Statistics : Type := {
  PacketsRecv : Z;
  PacketsSent : Z;
  PacketsRecvDuplicates : Z;
  PacketLoss : float;
  MinRtt : Z;
  MaxRtt : Z;
  AvgRtt : Z;
  StdDevRtt : Z
}.

Record hostUpdate : Type := {
  host : string;
  statistics : Statistics
}.

(** [d.Milliseconds()]: [int64(d) / 1e6]. *)
Definition Milliseconds (d : Z) : Z := quot64 d 1000000.

(** The values set on the nine gauges for one label. *)
Record Gauges : Type := {
  droppedPackets : float;
  receivedPackets : float;
  totalPackets : float;
  duplicatePackets : float;
  packetLossPercentage : float;
  roundTripMin : float;
  roundTripAvg : float;
  roundTripMax : float;
  roundTripDev : float
}.

(** What [case update := <-updateChan] sets for [update.host]. *)
Definition gaugesOf (s : Statistics) : Gauges :=
  {| droppedPackets := float64 (sub64 (PacketsSent s) (PacketsRecv s));
     receivedPackets := float64 (PacketsRecv s);
     totalPackets := float64 (PacketsSent s);
     duplicatePackets := float64 (PacketsRecvDuplicates s);
     packetLossPercentage := PacketLoss s;
     roundTripMin := float64 (Milliseconds (MinRtt s));
     roundTripAvg := float64 (Milliseconds (AvgRtt s));
     roundTripMax := float64 (Milliseconds (MaxRtt s));
     roundTripDev := float64 (Milliseconds (StdDevRtt s)) |}.

(** The gauge vectors, by [monitor_target] label. *)
Definition Registry : Type := string -> option Gauges.

Definition onHostUpdate (update : hostUpdate) (reg : Registry) : Registry :=
  fun label =>
    if String.eqb label (host update) then Some (gaugesOf (statistics update))
    else reg label.

(** The metrics goroutine over the updates it receives, oldest first. *)
Definition metricsLoop (updates : list hostUpdate) (reg : Registry)
  : Registry :=
  fold_left (fun r u => onHostUpdate u r) updates reg.

End ProBing.

(* ================================================================== *)
(** ** Concrete libraries and datagrams used in the examples *)

Module Fixtures.
Import Go Icmp.

(** The first byte of an ICMPv4 message is its type: 0 echo reply, 8 echo. *)
Definition typeOfByte (b : Z) : ICMPType :=
  if b =? 0 then ICMPTypeEchoReply
  else if b =? 8 then ICMPTypeEcho
  else ICMPTypeOther b.

Definition byteOfType (t : ICMPType) : Z :=
  match t with
  | ICMPTypeEchoReply => 0
  | ICMPTypeEcho => 8
  | ICMPTypeOther n => n
  end.

Definition seqOfBody (b : option Echo) : Z :=
  match b with Some e => Seq e | None => 0 end.

(** A library that lays an echo message out as type, code, checksum,
    identifier and sequence number, and reads the header back. *)
Definition wireLib : Library := {|
  Marshal := fun m =>
    inl [byteOfType (MsgType m); Code m; 0; 0; 0; 0;
         Z.shiftr (seqOfBody (Body m)) 8; Z.land (seqOfBody (Body m)) 255];
  ParseMessage := fun _ b =>
    if (List.length b <? 4)%nat then inr (OtherError "message too short")
    else inl {| MsgType := typeOfByte (nth 0 b 0); Code := nth 1 b 0;
                Body := None |}
|}.

(** A library whose [Marshal] always fails. *)
Definition brokenLib : Library := {|
  Marshal := fun _ => inr (OtherError "marshal");
  ParseMessage := fun _ _ => inr (OtherError "parse")
|}.

(** The echo reply that answers the request numbered [s]. *)
Definition echoReply (s : Z) : list Z :=
  [0; 0; 0; 0; 0; 0; Z.shiftr s 8; Z.land s 255].

Definition host : string := "1.0.0.1".
Definition second : Z := 1000000000.

Definition sendOk : Monitor.SendEnv :=
  {| Monitor.setWriteDeadlineErr := None; Monitor.writeToErr := None |}.

Definition recvReply (s : Z) : Monitor.RecvEnv :=
  {| Monitor.setReadDeadlineErr := None;
     Monitor.readFromRes := ReadOk (echoReply s) host |}.

Definition recvTimeout : Monitor.RecvEnv :=
  {| Monitor.setReadDeadlineErr := None;
     Monitor.readFromRes := ReadFail ErrDeadlineExceeded |}.

(** A cycle of [main] started at [t0] whose read answers [r] after [rtt]. *)
Definition cycleAt (t0 rtt : Z) (r : Monitor.RecvEnv) : Monitor.CycleEnv :=
  {| Monitor.nowCtx := t0; Monitor.nowStart := t0;
     Monitor.sendEnv := sendOk; Monitor.listenErr := None;
     Monitor.recvEnv := r; Monitor.nowStop := t0 + rtt |}.

(** Three iterations: a reply after 5 ms, a read that times out, a reply
    after 7 ms. *)
Definition threeCycles : list Monitor.CycleEnv :=
  [cycleAt 0 5000000 (recvReply 0);
   cycleAt (2 * second) second recvTimeout;
   cycleAt (4 * second) 7000000 (recvReply 2)].

(** Two iterations: the read of the first times out; the second reads the
    late reply to the first request. *)
Definition staleCycles : list Monitor.CycleEnv :=
  [cycleAt 0 second recvTimeout;
   cycleAt (2 * second) 5000000 (recvReply 0)].

(** A delivered event with the given round-trip time, in nanoseconds. *)
Definition delivered (rtt : Z) : Monitor.packetUpdate :=
  {| Monitor.received := true; Monitor.seqNumber := 0;
     Monitor.rttStart := 0; Monitor.rttStop := rtt |}.

Definition lost : Monitor.packetUpdate :=
  {| Monitor.received := false; Monitor.seqNumber := 0;
     Monitor.rttStart := 0; Monitor.rttStop := 0 |}.

(** An iteration of the older [pingLoop] over the given turns of
    [readLoop]. *)
Definition legacyCycle (rs : list Legacy.ReadAttempt) : Legacy.CycleEnv :=
  {| Legacy.nowWrite := 0; Legacy.setWriteDeadlineErr := None;
     Legacy.writeToErr := None; Legacy.nowStart := 0;
     Legacy.reads := rs; Legacy.nowStop := 5000000 |}.

(** An iteration of the older [pingLoop] whose write fails. *)
Definition legacyWriteFails : Legacy.CycleEnv :=
  {| Legacy.nowWrite := 0; Legacy.setWriteDeadlineErr := None;
     Legacy.writeToErr := Some (OtherError "network is unreachable");
     Legacy.nowStart := 0; Legacy.reads := []; Legacy.nowStop := 0 |}.

(** Statistics of a host on the local network: three replies, all within
    a millisecond. *)
Definition fastStats : ProBing.Statistics :=
  {| ProBing.PacketsRecv := 3; ProBing.PacketsSent := 3;
     ProBing.PacketsRecvDuplicates := 0; ProBing.PacketLoss := 0%float;
     ProBing.MinRtt := 310000; ProBing.MaxRtt := 920000;
     ProBing.AvgRtt := 540000; ProBing.StdDevRtt := 270000 |}.

(** One turn of the older [readLoop] whose read times out with the ticker
    fired, and an iteration of [pingLoop] that gets no reply. *)
Definition timeoutAttempt : Legacy.ReadAttempt :=
  {| Legacy.nowRead := 0; Legacy.setReadDeadlineErr := None;
     Legacy.readFromRes := ReadFail ErrDeadlineExceeded;
     Legacy.tickerFired := true |}.

Definition legacyTimeout : Legacy.CycleEnv := legacyCycle [timeoutAttempt].

Definition legacyLost : Legacy.packetUpdate :=
  {| Legacy.dropped := true; Legacy.seqNumber := 1;
     Legacy.rttStart := 0; Legacy.rttStop := 0 |}.

(** One turn of the older [readLoop] that reads [data] from [host]. *)
Definition attempt (data : list Z) (fired : bool) : Legacy.ReadAttempt :=
  {| Legacy.nowRead := 0; Legacy.setReadDeadlineErr := None;
     Legacy.readFromRes := ReadOk data host; Legacy.tickerFired := fired |}.

End Fixtures.

(* ================================================================== *)
(** ** The correlator as the specification words it *)

Module Spec.
Import Icmp.

(** Match: the datagram parses, its type is echo reply, its source is the
    target, and its sequence number is the outstanding one. *)
Definition matchCondition {lib : Library} (datagram : list Z)
    (source target : string) (outstanding : Z) : Prop :=
  (exists m, ParseMessage 1 datagram = inl m /\ MsgType m = ICMPTypeEchoReply)
  /\ source = target
  /\ rxSeqNumOf datagram = outstanding.

(** Sequence numbers that stay within 16 bits and step to the successor
    modulo 65536, 65535 being followed by 0. *)
Definition wrapsAround (reqs : list Message) : Prop :=
  (forall k m, nth_error reqs k = Some m ->
     exists s, m = Monitor.echoRequest s /\ 0 <= s <= 65535) /\
  (forall k s s',
     nth_error reqs k = Some (Monitor.echoRequest s) ->
     nth_error reqs (S k) = Some (Monitor.echoRequest s') ->
     s' = (s + 1) mod 65536 /\ (s = 65535 -> s' = 0)).




(** Two snapshots that agree on every gauge but the minimum. *)
Definition sameButMin (p q : Monitor.Published) : Prop :=
  Monitor.droppedPackets p = Monitor.droppedPackets q /\
  Monitor.totalPackets p = Monitor.totalPackets q /\
  Monitor.packetLossPercentage p = Monitor.packetLossPercentage q /\
  Monitor.roundTripAvg p = Monitor.roundTripAvg q /\
  Monitor.roundTripMax p = Monitor.roundTripMax q.

End Spec.

(* ================================================================== *)
(** * Properties *)

(** ** 64-bit arithmetic *)

Lemma wrap64_small (z : Z) :
  Go.MinInt64 <= z <= Go.MaxInt64 -> Go.wrap64 z = z.
Proof.
  unfold Go.wrap64, Go.MinInt64, Go.MaxInt64. intros Hz.
  rewrite Z.mod_small; lia.
Qed.

Lemma add64_small (a b : Z) :
  Go.MinInt64 <= a + b <= Go.MaxInt64 -> Go.add64 a b = a + b.
Proof. apply wrap64_small. Qed.

Lemma sub64_small (a b : Z) :
  Go.MinInt64 <= a - b <= Go.MaxInt64 -> Go.sub64 a b = a - b.
Proof. apply wrap64_small. Qed.

(** ** Aggregator *)

Section AggregatorFacts.
Import Go Monitor.

Lemma aggregator_app (pre post : list AggInput) (s : AggState) :
  aggregator (pre ++ post) s =
  (fst (aggregator pre s) ++ fst (aggregator post (snd (aggregator pre s))),
   snd (aggregator post (snd (aggregator pre s)))).
Proof.
  revert s. induction pre as [|i pre IH]; intros s; simpl.
  - destruct (aggregator post s); reflexivity.
  - destruct i as [u|].
    + apply IH.
    + rewrite IH. destruct (aggregator pre _) as [ps s'].
      simpl. reflexivity.
Qed.

End AggregatorFacts.

Section AggregatorWindow.
Import Go Monitor.

Lemma window_cons (u : packetUpdate) (us : list packetUpdate) (s : AggState) :
  window (u :: us) s = window us (onUpdate u s).
Proof. reflexivity. Qed.

Lemma onUpdate_total (u : packetUpdate) (s : AggState) :
  totalPacketsCounter (onUpdate u s) = add64 (totalPacketsCounter s) 1.
Proof.
  unfold onUpdate.
  destruct (received u); [destruct (rttAvg s =? 0)|]; reflexivity.
Qed.

Lemma onUpdate_dropped (u : packetUpdate) (s : AggState) :
  droppedPacketsCounter (onUpdate u s) =
  if received u then droppedPacketsCounter s
  else add64 (droppedPacketsCounter s) 1.
Proof.
  unfold onUpdate.
  destruct (received u); [destruct (rttAvg s =? 0)|]; reflexivity.
Qed.

(** An event that was not received leaves the round-trip accumulators alone. *)
Lemma onUpdate_lost_rtt (u : packetUpdate) (s : AggState) :
  received u = false ->
  rttMin (onUpdate u s) = rttMin s /\ rttAvg (onUpdate u s) = rttAvg s /\
  rttAvgCnt (onUpdate u s) = rttAvgCnt s /\ rttMax (onUpdate u s) = rttMax s.
Proof. intros H. unfold onUpdate. rewrite H. simpl. auto. Qed.

Lemma countReceived_cons (u : packetUpdate) (us : list packetUpdate) :
  countReceived (u :: us) =
  (if received u then 1 else 0) + countReceived us.
Proof.
  unfold countReceived. simpl. destruct (received u); simpl List.length; lia.
Qed.

Lemma countReceived_bounds (us : list packetUpdate) :
  0 <= countReceived us <= Z.of_nat (List.length us).
Proof.
  induction us as [|u us IH].
  - unfold countReceived. simpl. lia.
  - rewrite countReceived_cons. simpl List.length.
    destruct (received u); lia.
Qed.

(** Within one window the two counters count events, as long as the number
    of events fits a Go [int]. *)
Lemma window_counts (us : list packetUpdate) : forall s : AggState,
  0 <= droppedPacketsCounter s ->
  0 <= totalPacketsCounter s ->
  totalPacketsCounter s + Z.of_nat (List.length us) <= MaxInt64 ->
  droppedPacketsCounter s + Z.of_nat (List.length us) <= MaxInt64 ->
  totalPacketsCounter (window us s) =
    totalPacketsCounter s + Z.of_nat (List.length us) /\
  droppedPacketsCounter (window us s) =
    droppedPacketsCounter s + (Z.of_nat (List.length us) - countReceived us).
Proof.
  induction us as [|u us IH]; intros s Hd Ht Hbt Hbd.
  - unfold countReceived. simpl. split; lia.
  - rewrite window_cons. simpl List.length in *.
    assert (Hmin : MinInt64 <= 0) by (unfold MinInt64; lia).
    pose proof (countReceived_bounds us) as Hc.
    assert (Ht' : totalPacketsCounter (onUpdate u s) = totalPacketsCounter s + 1).
    { rewrite onUpdate_total. apply add64_small. lia. }
    assert (Hd' : droppedPacketsCounter (onUpdate u s) =
                  droppedPacketsCounter s + (if received u then 0 else 1)).
    { rewrite onUpdate_dropped. destruct (received u); [lia|].
      apply add64_small. lia. }
    destruct (IH (onUpdate u s)) as [IHt IHd].
    + rewrite Hd'. destruct (received u); lia.
    + lia.
    + lia.
    + rewrite Hd'. destruct (received u); lia.
    + rewrite IHt, IHd, Ht', Hd', countReceived_cons.
      destruct (received u); split; lia.
Qed.

(** A window without a received event keeps the start values of the
    round-trip accumulators. *)
Lemma window_all_lost (us : list packetUpdate) : forall s : AggState,
  countReceived us = 0 ->
  rttMin (window us s) = rttMin s /\ rttAvg (window us s) = rttAvg s /\
  rttMax (window us s) = rttMax s.
Proof.
  induction us as [|u us IH]; intros s H.
  - simpl. auto.
  - rewrite countReceived_cons in H.
    pose proof (countReceived_bounds us) as Hc.
    destruct (received u) eqn:Hu; [lia|].
    rewrite window_cons.
    destruct (IH (onUpdate u s)) as (Hmin & Havg & Hmax); [lia|].
    destruct (onUpdate_lost_rtt u s Hu) as (E1 & E2 & _ & E4).
    rewrite Hmin, Havg, Hmax, E1, E2, E4. auto.
Qed.

(** The divisor [rttAvgCnt + 1] of the mean update is at least 2 in every
    window of fewer than 2^63 events, so that division cannot panic. *)
Lemma onUpdate_avgCnt (u : packetUpdate) (s : AggState) :
  1 <= rttAvgCnt s < MaxInt64 ->
  rttAvgCnt s <= rttAvgCnt (onUpdate u s) <= rttAvgCnt s + 1.
Proof.
  intros H. unfold onUpdate.
  destruct (received u); [destruct (rttAvg s =? 0)|]; simpl; try lia.
  rewrite add64_small; unfold MinInt64, MaxInt64 in *; lia.
Qed.

Lemma window_avgCnt (us : list packetUpdate) : forall s : AggState,
  1 <= rttAvgCnt s ->
  rttAvgCnt s + Z.of_nat (List.length us) < MaxInt64 ->
  1 <= rttAvgCnt (window us s) <= rttAvgCnt s + Z.of_nat (List.length us) /\
  2 <= add64 (rttAvgCnt (window us s)) 1.
Proof.
  induction us as [|u us IH]; intros s H1 Hb.
  - simpl in *. rewrite add64_small; unfold MinInt64, MaxInt64 in *; lia.
  - rewrite window_cons. simpl List.length in *.
    assert (Hu : rttAvgCnt s <= rttAvgCnt (onUpdate u s) <= rttAvgCnt s + 1)
      by (apply onUpdate_avgCnt; lia).
    destruct (IH (onUpdate u s)) as [IH1 IH2]; lia.
Qed.

Lemma aggregator_tick (post : list AggInput) (s : AggState) :
  aggregator (Tick :: post) s =
  (fst (onTick s) :: fst (aggregator post aggStart),
   snd (aggregator post aggStart)).
Proof.
  change (aggregator (Tick :: post) s)
    with (let '(ps, s'') := aggregator post aggStart in
          (fst (onTick s) :: ps, s'')).
  destruct (aggregator post aggStart); reflexivity.
Qed.

(** A flush resets every accumulator to its start value, whatever the
    window held; so in any interleaving the snapshots published after a
    flush, and the accumulator reached, are those of a fresh aggregator fed
    only the events that follow the flush.  Events consumed before the flush
    ([pre]) do not occur on the right-hand sides. *)
Theorem flush_resets_window (pre post : list AggInput) (s : AggState) :
  snd (onTick s) = aggStart /\
  snd (aggregator (pre ++ Tick :: post) s) = snd (aggregator post aggStart) /\
  fst (aggregator (pre ++ Tick :: post) s) =
    fst (aggregator pre s)
    ++ fst (onTick (snd (aggregator pre s)))
    :: fst (aggregator post aggStart).
Proof.
  split; [reflexivity|].
  rewrite aggregator_app, aggregator_tick. simpl. split; reflexivity.
Qed.

(** The scenario of the specification: a 5 ms reply just before a flush
    leaves no trace in the snapshot of the next window, which holds a single
    9 ms reply. *)
Example flush_5ms_does_not_leak :
  let run := aggregator [Update (Fixtures.delivered 5000000); Tick;
                         Update (Fixtures.delivered 9000000); Tick] aggStart in
  map roundTripMin (fst run) = [msecFl 5000000; msecFl 9000000] /\
  map roundTripMax (fst run) = [msecFl 5000000; msecFl 9000000] /\
  map totalPackets (fst run) = [float64 1; float64 1] /\
  snd run = aggStart.
Proof. vm_compute. repeat split; reflexivity. Qed.

(** The older generation resets the same six variables. *)
Lemma legacy_flush_resets (s : Legacy.AggState) :
  snd (Legacy.onTick s) = Legacy.aggStart.
Proof. reflexivity. Qed.

(** C4. The flush divides [float64(droppedPacketsCounter)] by
    [float64(totalPacketsCounter)] without looking at the divisor: for a
    window that consumed no event (the first window, or any window right
    after a flush) the value set on the loss gauge is the NaN of 0/0, in
    both generations. *)
Theorem empty_window_loss_is_nan :
  packetLossPercentage (fst (onTick aggStart)) = PrimFloat.nan /\
  (forall s : AggState,
     PrimFloat.is_nan
       (packetLossPercentage (fst (onTick (snd (onTick s))))) = true) /\
  packetLossPercentage (fst (Legacy.onTick Legacy.aggStart)) = PrimFloat.nan.
Proof. repeat split. Qed.

(** C5, as stated, fails: the flush of the empty window publishes a minimum
    of exactly 0 ms. *)
Lemma empty_window_min_is_zero :
  countReceived [] = 0 /\
  roundTripMin (fst (onTick (window [] aggStart))) = 0%float.
Proof. split; reflexivity. Qed.

(** The guarded flush: for every window in which no packet was received,
    the flush replaces the start value [MaxInt64] of the minimum by 0 and
    publishes 0 ms as minimum. *)
Theorem lossy_window_min_is_zero (us : list packetUpdate) :
  countReceived us = 0 ->
  flushedMin (window us aggStart) = 0 /\
  roundTripMin (fst (onTick (window us aggStart))) = 0%float.
Proof.
  intros H. destruct (window_all_lost us aggStart H) as (Hmin & _ & _).
  assert (E : flushedMin (window us aggStart) = 0).
  { unfold flushedMin. rewrite Hmin. reflexivity. }
  split; [exact E|].
  unfold onTick. simpl. rewrite E. reflexivity.
Qed.

Lemma lossy_window_min_is_zero_witness :
  countReceived [Fixtures.lost; Fixtures.lost] = 0 /\
  roundTripMin
    (fst (onTick (window [Fixtures.lost; Fixtures.lost] aggStart))) = 0%float.
Proof.
  split; [reflexivity|].
  apply (lossy_window_min_is_zero [Fixtures.lost; Fixtures.lost]).
  reflexivity.
Defined.

(** The older generation has no such replacement: it converts the start
    value itself, and publishes a minimum of about 9.2e12 ms. *)
Lemma legacy_empty_window_min :
  roundTripMin (fst (Legacy.onTick Legacy.aggStart)) = msecFl MaxInt64 /\
  PrimFloat.ltb 9e12 (msecFl MaxInt64) = true.
Proof. split; reflexivity. Qed.

(** C6. Three replies of 10 ms, 20 ms and 30 ms consumed in a fresh window
    leave exactly 20 ms, 10 ms and 30 ms in [rttAvg], [rttMin] and [rttMax];
    the flush then converts each duration [d] to
    [float64(d/us)/1000 + float64(d/ms)/1000] and sets the gauges to
    20.02, 10.01 and 30.03 milliseconds. *)
Theorem three_samples_flush :
  let s := window [Fixtures.delivered 10000000; Fixtures.delivered 20000000;
                   Fixtures.delivered 30000000] aggStart in
  let p := fst (onTick s) in
  (rttAvg s = 20 * Millisecond /\ rttMin s = 10 * Millisecond /\
   rttMax s = 30 * Millisecond) /\
  (roundTripAvg p = 0x1.4051eb851eb85p+4%float /\
   roundTripMin p = 0x1.4051eb851eb85p+3%float /\
   roundTripMax p = 0x1.e07ae147ae148p+4%float) /\
  (PrimFloat.ltb 20 (roundTripAvg p) = true /\
   PrimFloat.ltb 10 (roundTripMin p) = true /\
   PrimFloat.ltb 30 (roundTripMax p) = true).
Proof. vm_compute. repeat split; reflexivity. Qed.

End AggregatorWindow.

(** ** Prober: [sendPing] and [receivePing] *)

Section ProberFacts.
Import Go Icmp Monitor Spec.
Context {lib : Library}.

Lemma requests_app (xs ys : list Call) :
  requests (xs ++ ys) = requests xs ++ requests ys.
Proof.
  induction xs as [|c xs IH]; [reflexivity|].
  destruct c; simpl; rewrite IH; reflexivity.
Qed.

Lemma readCount_app (xs ys : list Call) :
  readCount (xs ++ ys) = (readCount xs + readCount ys)%nat.
Proof.
  induction xs as [|c xs IH]; [reflexivity|].
  destruct c; simpl; rewrite IH; reflexivity.
Qed.

(** The sequence number [sendPing] places in its request, given the value
    of [seq] it finds. *)
Lemma placed_seq (n : Z) :
  0 <= n <= 65536 -> (if n =? 65536 then 0 else n) = n mod 65536.
Proof.
  intros Hn. destruct (n =? 65536) eqn:E.
  - apply Z.eqb_eq in E. subst n. reflexivity.
  - apply Z.eqb_neq in E. rewrite Z.mod_small; lia.
Qed.

(** What one [sendPing] with a deadline does to the state. *)
Lemma sendPing_deadline (d : Z) (env : SendEnv) (target : string) (st : State) :
  0 <= seq st <= 65536 ->
  forall r st', sendPing (Some d) env target st = (r, st') ->
  rcvBuf st' = rcvBuf st /\ updateChan st' = updateChan st /\
  readCount (calls st') = readCount (calls st) /\
  (exists rest, calls st' =
                calls st ++ CallMarshal (echoRequest (seq st mod 65536)) :: rest
                /\ requests rest = []) /\
  match r with
  | Returned _ =>
      seq st' = seq st mod 65536 + 1 /\
      exists req, Marshal (echoRequest (seq st mod 65536)) = inl req
  | Exited c =>
      c = 1 /\ seq st' = seq st mod 65536 /\
      exists e, Marshal (echoRequest (seq st mod 65536)) = inr e
  | Panicked => False
  end.
Proof.
  intros Hseq r st'. rewrite <- (placed_seq _ Hseq).
  assert (Hin : 0 <= (if seq st =? 65536 then 0 else seq st) <= 65535).
  { destruct (seq st =? 65536) eqn:E; [lia|]. apply Z.eqb_neq in E. lia. }
  assert (Hincr : forall n, 0 <= n <= 65535 -> add64 n 1 = n + 1).
  { intros n Hn. apply add64_small. unfold MinInt64, MaxInt64. lia. }
  unfold sendPing.
  destruct (seq st =? 65536) eqn:E; simpl;
    (destruct (Marshal _) as [req|e] eqn:EM;
     [destruct (setWriteDeadlineErr env);
      [|destruct (writeToErr env)]|]);
    intros H; inversion H; subst; clear H; simpl;
    rewrite <- ?app_assoc, ?readCount_app; simpl;
    (split; [reflexivity|]); (split; [reflexivity|]); (split; [lia|]);
    (split; [eexists; split; reflexivity|]);
    try (split; [apply Hincr; lia|eauto]);
    try (split; [reflexivity|split; [reflexivity|eauto]]).
Qed.

Lemma isEchoReply_true (t : ICMPType) :
  isEchoReply t = true <-> t = ICMPTypeEchoReply.
Proof. destruct t; simpl; split; intros H; congruence. Qed.

(** The test of [receivePing] is the specification's match condition, taken
    against [seq - 1]. *)
Lemma replyMatches_iff (b : list Z) (addr target : string) (st : State) :
  replyMatches b addr target st = true <->
  matchCondition b addr target (sub64 (seq st) 1).
Proof.
  unfold replyMatches, matchCondition.
  destruct (ParseMessage 1 b) as [m|e].
  - rewrite !andb_true_iff, isEchoReply_true, String.eqb_eq, Z.eqb_eq.
    split.
    + intros [[Ht Ha] Hs]. repeat split; eauto.
    + intros [[m' [Hm Ht]] [Ha Hs]]. inversion Hm; subst m'. auto.
  - split; [discriminate|]. intros [[m [Hm _]] _]. discriminate.
Qed.

(** Closes an implication whose premise equates distinct constructors. *)
Ltac absurd_case :=
  solve [ intros H; discriminate H
        | intros [H _]; discriminate H
        | intros [_ [? [? [H _]]]]; discriminate H ].

(** What one [receivePing] with a deadline does to the state. *)
Lemma receivePing_deadline (d : Z) (env : RecvEnv) (target : string)
    (st : State) :
  forall r st', receivePing (Some d) env target st = (r, st') ->
  seq st' = seq st /\ updateChan st' = updateChan st /\
  requests (calls st') = requests (calls st) /\
  (readCount (calls st') <= readCount (calls st) + 1)%nat /\
  match r with
  | Returned (rcv, _) =>
      rcv = true <->
      setReadDeadlineErr env = None /\
      exists data addr,
        readFromRes env = ReadOk data addr /\
        matchCondition (readInto data (rcvBuf st)) addr target
                       (sub64 (seq st) 1)
  | Exited _ => False
  | Panicked => True
  end.
Proof.
  intros r st'. unfold receivePing.
  destruct (setReadDeadlineErr env) as [e|] eqn:Ed.
  - intros H; inversion H; subst; clear H; simpl.
    rewrite requests_app, readCount_app; simpl. rewrite app_nil_r.
    repeat split; try lia; absurd_case.
  - destruct (readFromRes env) as [data addr|e] eqn:Er.
    + simpl.
      destruct (List.length (readInto data (rcvBuf st)) <? 8)%nat.
      * intros H; inversion H; subst; clear H; simpl.
        rewrite !requests_app, !readCount_app; simpl. rewrite !app_nil_r.
        repeat split; lia.
      * destruct (replyMatches _ addr target _) eqn:Em;
          intros H; inversion H; subst; clear H; simpl;
          rewrite !requests_app, !readCount_app; simpl; rewrite !app_nil_r;
          (split; [reflexivity|]); (split; [reflexivity|]);
          (split; [reflexivity|]); (split; [lia|]).
        -- split; [intros _|reflexivity]. split; [reflexivity|].
           exists data, addr. split; [reflexivity|].
           apply replyMatches_iff in Em. exact Em.
        -- split; [intros H; discriminate H|].
           intros [_ [data' [addr' [Hr Hm]]]].
           inversion Hr; subst data' addr'.
           assert (Hm' : replyMatches (readInto data (rcvBuf st)) addr target
                           (logCall CallReadFrom
                              (logCall (CallSetReadDeadline d) st)) = true).
           { apply replyMatches_iff. exact Hm. }
           congruence.
    + intros H; inversion H; subst; clear H; simpl.
      rewrite !requests_app, !readCount_app; simpl. rewrite !app_nil_r.
      repeat split; try lia; absurd_case.
Qed.

(** One completed iteration of the loop of [main]: one request built, at
    most one datagram read, one event sent, and that event says [received]
    exactly when the datagram read meets the match condition for the
    sequence number of this iteration's request. *)
Lemma cycle_returned (icmpInterval : Z) (pingHost : string) (env : CycleEnv)
    (st st' : State) :
  0 <= seq st <= 65536 ->
  cycle icmpInterval pingHost env st = (Returned tt, st') ->
  seq st' = seq st mod 65536 + 1 /\
  requests (calls st') =
    requests (calls st) ++ [echoRequest (seq st mod 65536)] /\
  (readCount (calls st') <= readCount (calls st) + 1)%nat /\
  exists u,
    updateChan st' = updateChan st ++ [u] /\
    (received u = true <->
     setReadDeadlineErr (recvEnv env) = None /\
     exists data addr,
       readFromRes (recvEnv env) = ReadOk data addr /\
       matchCondition (readInto data (rcvBuf st)) addr pingHost
                      (seq st mod 65536)).
Proof.
  intros Hseq Hc. unfold cycle in Hc.
  destruct (sendPing _ _ _ _) as [r st1] eqn:Es.
  destruct (sendPing_deadline _ _ _ _ Hseq _ _ Es)
    as (Hb & Hu & Hrc & (rest & Hcalls & Hrest) & Hr).
  destruct r as [err|c|]; [|discriminate Hc|discriminate Hc].
  destruct Hr as [Hs1 _].
  assert (Hmod : 0 <= seq st mod 65536 < 65536)
    by (apply Z.mod_pos_bound; lia).
  assert (Hback : sub64 (seq st1) 1 = seq st mod 65536).
  { rewrite Hs1. rewrite sub64_small; unfold MinInt64, MaxInt64; lia. }
  assert (Hreq1 : requests (calls st1) =
                  requests (calls st) ++ [echoRequest (seq st mod 65536)]).
  { rewrite Hcalls, requests_app. simpl. rewrite Hrest. reflexivity. }
  remember (match err with
            | Some e => isDeadlineExceeded e
            | None => false
            end) as relisten eqn:Hrel.
  remember (if relisten then logCall CallListenPacket st1 else st1)
    as st2 eqn:Hst2.
  assert (H2 : seq st2 = seq st1 /\ rcvBuf st2 = rcvBuf st1 /\
               updateChan st2 = updateChan st1 /\
               requests (calls st2) = requests (calls st1) /\
               readCount (calls st2) = readCount (calls st1)).
  { subst st2. destruct relisten; simpl;
      rewrite ?requests_app, ?readCount_app; simpl;
      rewrite ?app_nil_r, ?Nat.add_0_r; repeat split; reflexivity. }
  destruct H2 as (Hq2 & Hb2 & Hu2 & Hr2 & Hc2).
  assert (Hrecv : match receivePing (Some (nowCtx env + icmpInterval))
                          (recvEnv env) pingHost st2 with
                  | (Exited c, st) => (Exited c, st)
                  | (Panicked, st) => (Panicked, st)
                  | (Returned (rcv, _), st) =>
                      (Returned tt,
                       chanSend {| received := rcv; seqNumber := seq st;
                                   rttStart := nowStart env;
                                   rttStop := nowStop env |} st)
                  end = (Returned tt, st')).
  { destruct relisten; [destruct (listenErr env)|];
      [discriminate Hc|exact Hc|exact Hc]. }
  clear Hc.
  destruct (receivePing _ _ _ st2) as [r2 st3] eqn:Er.
  destruct (receivePing_deadline _ _ _ _ _ _ Er)
    as (Hq3 & Hu3 & Hr3 & Hc3 & Hm).
  destruct r2 as [[rcv e2]|c|]; [|discriminate Hrecv|discriminate Hrecv].
  inversion Hrecv; subst st'; clear Hrecv. simpl.
  rewrite Hq3, Hq2, Hr3, Hr2, Hu3, Hu2, Hu.
  rewrite Hq2, Hb2, Hb, Hback in Hm.
  split; [exact Hs1|]. split; [exact Hreq1|]. split; [lia|].
  eexists. split; [reflexivity|]. simpl. exact Hm.
Qed.

(** Neither call touches the channel, whatever [seq] holds. *)
Lemma sendPing_chan (ctx : option Z) (env : SendEnv) (target : string)
    (st : State) :
  updateChan (snd (sendPing ctx env target st)) = updateChan st.
Proof.
  unfold sendPing. destruct ctx as [d|]; [|reflexivity].
  destruct (seq st =? 65536); simpl;
    (destruct (Marshal _);
     [destruct (setWriteDeadlineErr env);
      [|destruct (writeToErr env)]|]); reflexivity.
Qed.

Lemma receivePing_chan (ctx : option Z) (env : RecvEnv) (target : string)
    (st : State) :
  updateChan (snd (receivePing ctx env target st)) = updateChan st.
Proof.
  unfold receivePing. destruct ctx as [d|]; [|reflexivity].
  destruct (setReadDeadlineErr env); [reflexivity|].
  destruct (readFromRes env) as [data addr|e]; [|reflexivity].
  simpl. destruct (List.length _ <? 8)%nat; [reflexivity|].
  destruct (replyMatches _ _ _ _); reflexivity.
Qed.

(** Every completed iteration sends exactly one event. *)
Lemma cycle_emits_one (icmpInterval : Z) (pingHost : string) (env : CycleEnv)
    (st st' : State) :
  cycle icmpInterval pingHost env st = (Returned tt, st') ->
  exists u, updateChan st' = updateChan st ++ [u].
Proof.
  unfold cycle. intros Hc.
  pose proof (sendPing_chan (Some (nowCtx env + icmpInterval)) (sendEnv env)
                pingHost st) as Hs.
  destruct (sendPing _ _ _ _) as [r st1]. simpl in Hs.
  destruct r as [err|c|]; [|discriminate Hc|discriminate Hc].
  remember (match err with
            | Some e => isDeadlineExceeded e
            | None => false
            end) as relisten.
  remember (if relisten then logCall CallListenPacket st1 else st1) as st2.
  assert (H2 : updateChan st2 = updateChan st1).
  { subst st2. destruct relisten; reflexivity. }
  pose proof (receivePing_chan (Some (nowCtx env + icmpInterval)) (recvEnv env)
                pingHost st2) as Hr.
  destruct (receivePing _ _ _ st2) as [r2 st3]. simpl in Hr.
  destruct relisten; [destruct (listenErr env)|];
    try discriminate Hc;
    (destruct r2 as [[rcv e2]|c|]; [|discriminate Hc|discriminate Hc]);
    inversion Hc; subst st'; simpl; rewrite Hr, H2, Hs; eauto.
Qed.

Lemma mainLoop_cons (icmpInterval : Z) (pingHost : string) (env : CycleEnv)
    (rest : list CycleEnv) (st st' : State) :
  mainLoop icmpInterval pingHost (env :: rest) st = (Returned tt, st') ->
  exists st1,
    cycle icmpInterval pingHost env st = (Returned tt, st1) /\
    mainLoop icmpInterval pingHost rest st1 = (Returned tt, st').
Proof.
  simpl. destruct (cycle _ _ _ _) as [r st1].
  destruct r as [[]|c|]; intros H; [eauto|discriminate H|discriminate H].
Qed.

Lemma mainLoop_events (icmpInterval : Z) (pingHost : string)
    (envs : list CycleEnv) : forall st st',
  mainLoop icmpInterval pingHost envs st = (Returned tt, st') ->
  exists us, updateChan st' = updateChan st ++ us /\
             List.length us = List.length envs.
Proof.
  induction envs as [|env rest IH]; intros st st' H.
  - simpl in H. inversion H; subst. exists []. rewrite app_nil_r. auto.
  - apply mainLoop_cons in H. destruct H as (st1 & Hc & Hl).
    apply cycle_emits_one in Hc. destruct Hc as [u Hu].
    destruct (IH _ _ Hl) as (us & Hus & Hlen).
    exists (u :: us). rewrite Hus, Hu, <- app_assoc. simpl.
    split; [reflexivity|]. rewrite Hlen. reflexivity.
Qed.

Lemma map_seq_succ {A : Type} (f : nat -> A) (n : nat) :
  map f (List.seq 0 (S n)) = f O :: map (fun k => f (S k)) (List.seq 0 n).
Proof. simpl. rewrite <- seq_shift, map_map. reflexivity. Qed.

(** The requests built by a completed run number on from [seq], modulo
    65536, and [seq] stays within 0..65536. *)
Lemma mainLoop_requests (icmpInterval : Z) (pingHost : string)
    (envs : list CycleEnv) : forall st st',
  0 <= seq st <= 65536 ->
  mainLoop icmpInterval pingHost envs st = (Returned tt, st') ->
  0 <= seq st' <= 65536 /\
  requests (calls st') =
    requests (calls st)
    ++ map (fun k => echoRequest ((seq st + Z.of_nat k) mod 65536))
           (List.seq 0 (List.length envs)).
Proof.
  induction envs as [|env rest IH]; intros st st' Hseq H.
  - simpl in H. inversion H; subst. simpl. rewrite app_nil_r. auto.
  - apply mainLoop_cons in H. destruct H as (st1 & Hc & Hl).
    destruct (cycle_returned _ _ _ _ _ Hseq Hc) as (Hs1 & Hr1 & _).
    assert (Hmod : 0 <= seq st mod 65536 < 65536)
      by (apply Z.mod_pos_bound; lia).
    destruct (IH st1 st') as [Hrange Hreq]; [lia|exact Hl|].
    split; [exact Hrange|].
    rewrite Hreq, Hr1, <- app_assoc. f_equal.
    change (List.length (env :: rest)) with (S (List.length rest)).
    rewrite map_seq_succ. simpl app. rewrite Z.add_0_r. f_equal.
    apply map_ext. intros k. f_equal.
    rewrite Hs1, Nat2Z.inj_succ.
    replace (seq st mod 65536 + 1 + Z.of_nat k)
      with (seq st mod 65536 + (1 + Z.of_nat k)) by lia.
    rewrite Zplus_mod_idemp_l. f_equal. lia.
Qed.

Lemma nth_error_map_seq {A : Type} (f : nat -> A) (n k : nat) (m : A) :
  nth_error (map f (List.seq 0 n)) k = Some m -> m = f k /\ (k < n)%nat.
Proof.
  rewrite nth_error_map, nth_error_seq.
  destruct (Nat.ltb k n) eqn:E; simpl; intros H; inversion H.
  apply Nat.ltb_lt in E. auto.
Qed.

Lemma echoRequest_inj (s s' : Z) : echoRequest s = echoRequest s' -> s = s'.
Proof. intros H. inversion H. reflexivity. Qed.

(** C9. Without a deadline in the context, [sendPing] returns
    [os.ErrNoDeadline] and [receivePing] returns [(false, os.ErrNoDeadline)];
    each hands back the state it was given: [seq], the buffer, the call log
    (nothing marshalled, written or read) and the channel are untouched. *)
Theorem no_deadline_changes_nothing (senv : SendEnv) (renv : RecvEnv)
    (target : string) (st : State) :
  sendPing None senv target st = (Returned (Some ErrNoDeadline), st) /\
  receivePing None renv target st =
    (Returned (false, Some ErrNoDeadline), st).
Proof. split; reflexivity. Qed.

(** C10, amended. A [sendPing] that passes the deadline check builds one
    request, numbered [s] with [0 <= s <= 65535].  When [Marshal] accepts
    the request, [sendPing] returns, whether or not setting the write
    deadline or the write fails, and the deferred increment has run exactly
    once: [seq = s + 1].  When [Marshal] rejects it, [sendPing] does not
    return: the process leaves through [os.Exit(1)], no deferred function
    runs, and [seq] is still [s]. *)
Theorem sendPing_increment (d : Z) (env : SendEnv) (target : string)
    (st : State) (r : Result (option error)) (st' : State) :
  0 <= seq st <= 65536 ->
  sendPing (Some d) env target st = (r, st') ->
  exists s rest,
    s = (if seq st =? 65536 then 0 else seq st) /\
    0 <= s <= 65535 /\
    calls st' = calls st ++ CallMarshal (echoRequest s) :: rest /\
    requests rest = [] /\
    match Marshal (echoRequest s) with
    | inl _ => (exists err, r = Returned err) /\ seq st' = s + 1
    | inr _ => r = Exited 1 /\ seq st' = s
    end.
Proof.
  intros Hseq H.
  destruct (sendPing_deadline _ _ _ _ Hseq _ _ H)
    as (_ & _ & _ & (rest & Hcalls & Hrest) & Hr).
  assert (Hmod : 0 <= seq st mod 65536 < 65536)
    by (apply Z.mod_pos_bound; lia).
  exists (seq st mod 65536), rest.
  split; [symmetry; apply placed_seq; exact Hseq|].
  split; [lia|]. split; [exact Hcalls|]. split; [exact Hrest|].
  destruct r as [err|c|].
  - destruct Hr as [Hs [req Hreq]]. rewrite Hreq. eauto.
  - destruct Hr as [Hc [Hs [e He]]]. rewrite He. subst c. auto.
  - contradiction.
Qed.

(** C1, amended. In a completed iteration of the loop of [main], the event
    says [received] if and only if the read succeeded and the datagram
    parses, has type echo reply, comes from the target, and carries the
    sequence number [s] of the request built in this iteration.
    [receivePing] gets at [s] through the stored counter: when it compares,
    [seq] already holds [s + 1], and the test is against [seq - 1]. *)
Theorem reply_accepted_iff (icmpInterval : Z) (pingHost : string)
    (env : CycleEnv) (st st' : State) :
  0 <= seq st <= 65536 ->
  cycle icmpInterval pingHost env st = (Returned tt, st') ->
  exists s u,
    requests (calls st') = requests (calls st) ++ [echoRequest s] /\
    updateChan st' = updateChan st ++ [u] /\
    seq st' = s + 1 /\
    (received u = true <->
     setReadDeadlineErr (recvEnv env) = None /\
     exists data addr,
       readFromRes (recvEnv env) = ReadOk data addr /\
       matchCondition (readInto data (rcvBuf st)) addr pingHost s).
Proof.
  intros Hseq Hc.
  destruct (cycle_returned _ _ _ _ _ Hseq Hc) as (Hs & Hr & _ & u & Hu & Hm).
  exists (seq st mod 65536), u. auto.
Qed.

(** C2. A run of [N] completed iterations of the loop of [main], whatever
    the network answered, has sent exactly [N] events, one per iteration;
    an aggregator window that consumes them has counted [N] packets in
    [totalPacketsCounter], and the events marked [received] together with
    [droppedPacketsCounter] make up [N]. *)
Theorem event_accounting (icmpInterval : Z) (pingHost : string)
    (envs : list CycleEnv) (st st' : State) :
  Z.of_nat (List.length envs) <= MaxInt64 ->
  mainLoop icmpInterval pingHost envs st = (Returned tt, st') ->
  exists us,
    updateChan st' = updateChan st ++ us /\
    List.length us = List.length envs /\
    totalPacketsCounter (window us aggStart) = Z.of_nat (List.length envs) /\
    countReceived us + droppedPacketsCounter (window us aggStart) =
      Z.of_nat (List.length envs).
Proof.
  intros Hn H. destruct (mainLoop_events _ _ _ _ _ H) as (us & Hus & Hlen).
  exists us. split; [exact Hus|]. split; [exact Hlen|].
  destruct (window_counts us aggStart) as [Ht Hd];
    simpl; try rewrite Hlen; try lia.
  rewrite Ht, Hd, Hlen. simpl. split; lia.
Qed.

(** The [sendPing] generation: in a run of the loop of [main] from its
    start state, the [k]-th
    request built (counting from 0) carries sequence number [k mod 65536].
    Hence every sequence number lies in 0..65535, each request carries the
    successor modulo 65536 of the one before (65535 is followed by 0), and
    the 65537th request carries 0 again.  When the loop moves on to build a
    request, every earlier request has had its outcome event sent: none is
    outstanding. *)
Theorem sequence_numbers_wrap (icmpInterval : Z) (pingHost : string)
    (envs : list CycleEnv) (st' : State) :
  mainLoop icmpInterval pingHost envs mainStart = (Returned tt, st') ->
  let reqs := requests (calls st') in
  reqs = map (fun k => echoRequest (Z.of_nat k mod 65536))
             (List.seq 0 (List.length envs)) /\
  (forall k m, nth_error reqs k = Some m ->
     exists s, m = echoRequest s /\ 0 <= s <= 65535) /\
  (forall k s s',
     nth_error reqs k = Some (echoRequest s) ->
     nth_error reqs (S k) = Some (echoRequest s') ->
     s' = (s + 1) mod 65536 /\ (s = 65535 -> s' = 0)) /\
  (forall m, nth_error reqs (Z.to_nat 65536) = Some m -> m = echoRequest 0) /\
  List.length (updateChan st') = List.length envs.
Proof.
  intros H reqs.
  assert (Hstart : 0 <= seq mainStart <= 65536) by (simpl; lia).
  destruct (mainLoop_requests _ _ _ _ _ Hstart H) as [_ Hreq].
  assert (E : reqs = map (fun k => echoRequest (Z.of_nat k mod 65536))
                         (List.seq 0 (List.length envs))).
  { subst reqs. rewrite Hreq. reflexivity. }
  split; [exact E|]. rewrite E.
  split; [|split; [|split]].
  - intros k m Hk. apply nth_error_map_seq in Hk. destruct Hk as [Hm _].
    exists (Z.of_nat k mod 65536). split; [exact Hm|].
    pose proof (Z.mod_pos_bound (Z.of_nat k) 65536). lia.
  - intros k s s' H0 H1. apply nth_error_map_seq in H0, H1.
    destruct H0 as [H0 _], H1 as [H1 _].
    apply echoRequest_inj in H0, H1.
    assert (Hs' : s' = (s + 1) mod 65536).
    { subst s s'. rewrite Nat2Z.inj_succ, Zplus_mod_idemp_l. f_equal; lia. }
    split; [exact Hs'|]. intros Hs. rewrite Hs', Hs. reflexivity.
  - intros m Hm. apply nth_error_map_seq in Hm. destruct Hm as [Hm _].
    rewrite Hm, Z2Nat.id by lia. reflexivity.
  - destruct (mainLoop_events _ _ _ _ _ H) as (us & Hus & Hlen).
    rewrite Hus. simpl. exact Hlen.
Qed.

End ProberFacts.

(** ** Concrete runs *)

Section ConcreteRuns.
Import Go Icmp Monitor Spec Fixtures.

(** The state right after the first [sendPing] of a run. *)
Lemma first_send :
  sendPing (lib := wireLib) (Some second) sendOk host mainStart =
  (Returned None,
   {| seq := 1; rcvBuf := rcvBuf mainStart;
      calls := [CallListenPacket; CallMarshal (echoRequest 0);
                CallSetWriteDeadline second;
                CallWriteTo [8; 0; 0; 0; 0; 0; 0; 0] host];
      updateChan := [] |}).
Proof. reflexivity. Qed.

(** C1, as stated, fails: after the first request (numbered 0) the stored
    counter is 1; [receivePing] accepts the reply numbered 0, which differs
    from the stored counter, and turns down the reply numbered 1, which
    equals it.  The comparison is against an adjusted copy of the counter. *)
Lemma stored_counter_is_adjusted :
  let st1 := snd (sendPing (lib := wireLib) (Some second) sendOk host
                           mainStart) in
  seq st1 = 1 /\
  fst (receivePing (lib := wireLib) (Some second) (recvReply 0) host st1)
    = Returned (true, None) /\
  ~ matchCondition (lib := wireLib)
      (readInto (echoReply 0) (rcvBuf st1)) host host (seq st1) /\
  fst (receivePing (lib := wireLib) (Some second) (recvReply 1) host st1)
    = Returned (false, None) /\
  matchCondition (lib := wireLib)
    (readInto (echoReply 1) (rcvBuf st1)) host host (seq st1).
Proof.
  rewrite first_send. cbn [snd seq rcvBuf].
  split; [reflexivity|]. split; [reflexivity|]. split.
  - intros (_ & _ & H). vm_compute in H. discriminate H.
  - split; [reflexivity|]. unfold matchCondition.
    split; [|split; reflexivity].
    eexists. split; reflexivity.
Qed.

Lemma reply_accepted_iff_witness :
  let env := cycleAt 0 5000000 (recvReply 0) in
  let st' := snd (cycle (lib := wireLib) second host env mainStart) in
  exists s u,
    requests (calls st') = requests (calls mainStart) ++ [echoRequest s] /\
    updateChan st' = updateChan mainStart ++ [u] /\
    seq st' = s + 1 /\
    (received u = true <->
     setReadDeadlineErr (recvEnv env) = None /\
     exists data addr,
       readFromRes (recvEnv env) = ReadOk data addr /\
       matchCondition (lib := wireLib)
         (readInto data (rcvBuf mainStart)) addr host s).
Proof.
  apply (reply_accepted_iff (lib := wireLib) second host
           (cycleAt 0 5000000 (recvReply 0)) mainStart).
  - simpl. lia.
  - reflexivity.
Defined.

(** C10, as stated, fails: when marshalling fails, the call passes the
    deadline check and builds request 0, but the process exits and [seq]
    is not incremented. *)
Lemma marshal_failure_skips_increment :
  let out := sendPing (lib := brokenLib) (Some second) sendOk host mainStart in
  fst out = Exited 1 /\
  calls (snd out) = calls mainStart ++ [CallMarshal (echoRequest 0)] /\
  seq (snd out) = 0 /\
  seq (snd out) <> 0 + 1.
Proof. repeat split. simpl. lia. Qed.

Lemma sendPing_increment_witness :
  let st' := snd (sendPing (lib := wireLib) (Some second) sendOk host
                           mainStart) in
  exists s rest,
    s = (if seq mainStart =? 65536 then 0 else seq mainStart) /\
    0 <= s <= 65535 /\
    calls st' = calls mainStart ++ CallMarshal (echoRequest s) :: rest /\
    requests rest = [] /\
    match Marshal (Library := wireLib) (echoRequest s) with
    | inl _ =>
        (exists err, Returned (@None error) = Returned err) /\ seq st' = s + 1
    | inr _ => Returned (@None error) = Exited 1 /\ seq st' = s
    end.
Proof.
  apply (sendPing_increment (lib := wireLib) second sendOk host mainStart
           (Returned None)).
  - simpl. lia.
  - reflexivity.
Defined.

Lemma event_accounting_witness :
  let st' := snd (mainLoop (lib := wireLib) second host threeCycles
                           mainStart) in
  exists us,
    updateChan st' = updateChan mainStart ++ us /\
    List.length us = List.length threeCycles /\
    totalPacketsCounter (window us aggStart) =
      Z.of_nat (List.length threeCycles) /\
    countReceived us + droppedPacketsCounter (window us aggStart) =
      Z.of_nat (List.length threeCycles).
Proof.
  apply (event_accounting (lib := wireLib) second host threeCycles mainStart).
  - vm_compute. discriminate.
  - vm_compute. reflexivity.
Defined.

Lemma sequence_numbers_wrap_witness :
  let st' := snd (mainLoop (lib := wireLib) second host threeCycles
                           mainStart) in
  requests (calls st') = [echoRequest 0; echoRequest 1; echoRequest 2] /\
  List.length (updateChan st') = 3%nat.
Proof.
  destruct (sequence_numbers_wrap (lib := wireLib) second host threeCycles
              (snd (mainLoop (lib := wireLib) second host threeCycles
                             mainStart)))
    as (Hreqs & _ & _ & _ & Hlen).
  - vm_compute. reflexivity.
  - split; [exact Hreqs|exact Hlen].
Defined.

End ConcreteRuns.

(** ** Replies that do not match *)

Section StaleReplies.
Import Go Icmp Spec Fixtures.

(** C3. [receivePing] reads one datagram per attempt.  Request 0 gets no
    reply in time; while request 1 is outstanding the late reply to
    request 0 is the first datagram on the socket.  The single read takes
    it, the test fails, and the attempt for request 1 ends as not received,
    without a second read that could find the reply to request 1. *)
Theorem stale_reply_ends_attempt :
  let out := Monitor.mainLoop (lib := wireLib) second host staleCycles
                              Monitor.mainStart in
  fst out = Returned tt /\
  requests (Monitor.calls (snd out)) =
    [Monitor.echoRequest 0; Monitor.echoRequest 1] /\
  map Monitor.received (Monitor.updateChan (snd out)) = [false; false] /\
  readCount (Monitor.calls (snd out)) = 2%nat.
Proof. vm_compute. repeat split; reflexivity. Qed.

(** In general: an iteration reads at most one datagram, and when that
    datagram carries another sequence number than the request of the
    iteration, the event sent says not received. *)
Lemma mismatch_ends_attempt {lib : Library} (icmpInterval : Z)
    (pingHost : string) (env : Monitor.CycleEnv) (st st' : Monitor.State)
    (data : list Z) (addr : string) :
  0 <= Monitor.seq st <= 65536 ->
  Monitor.cycle icmpInterval pingHost env st = (Returned tt, st') ->
  Monitor.readFromRes (Monitor.recvEnv env) = ReadOk data addr ->
  rxSeqNumOf (readInto data (Monitor.rcvBuf st)) <> Monitor.seq st mod 65536 ->
  (readCount (Monitor.calls st') <= readCount (Monitor.calls st) + 1)%nat /\
  exists u, Monitor.updateChan st' = Monitor.updateChan st ++ [u] /\
            Monitor.received u = false.
Proof.
  intros Hseq Hc Hread Hne.
  destruct (cycle_returned _ _ _ _ _ Hseq Hc) as (_ & _ & Hrc & u & Hu & Hm).
  split; [exact Hrc|]. exists u. split; [exact Hu|].
  destruct (Monitor.received u); [|reflexivity].
  destruct Hm as [Hm _]. destruct (Hm eq_refl) as (_ & data' & addr' & Hr & Hmc).
  rewrite Hread in Hr. inversion Hr; subst data' addr'.
  destruct Hmc as (_ & _ & Hs). contradiction.
Qed.

(** The test of the older [readLoop] is the specification's match
    condition, taken against [icmpBody.Seq] itself. *)
Lemma legacy_replyMatches_iff {lib : Library} (b : list Z)
    (addr pingHost : string) (st : Legacy.State) :
  Legacy.replyMatches b addr pingHost st = true <->
  matchCondition b addr pingHost (Legacy.bodySeq st).
Proof.
  unfold Legacy.replyMatches, matchCondition.
  destruct (ParseMessage 1 b) as [m|e].
  - rewrite !andb_true_iff, isEchoReply_true, String.eqb_eq, Z.eqb_eq.
    split.
    + intros [[Ht Ha] Hs]. repeat split; eauto.
    + intros [[m' [Hm Ht]] [Ha Hs]]. inversion Hm; subst m'. auto.
  - split; [intros H; discriminate H|].
    intros [[m [Hm _]] _]. discriminate Hm.
Qed.

(** The older [readLoop] discards a datagram that does not match and, as
    long as the ticker has not fired, reads again. *)
Lemma legacy_mismatch_continues {lib : Library} (icmpInterval : Z)
    (pingHost : string) (r : Legacy.ReadAttempt)
    (rest : list Legacy.ReadAttempt) (st : Legacy.State)
    (data : list Z) (addr : string) :
  Legacy.setReadDeadlineErr r = None ->
  Legacy.readFromRes r = ReadOk data addr ->
  Legacy.tickerFired r = false ->
  (8 <= List.length (readInto data (Legacy.buf st)))%nat ->
  ~ matchCondition (readInto data (Legacy.buf st)) addr pingHost
      (Legacy.bodySeq st) ->
  Legacy.readLoop icmpInterval pingHost (r :: rest) st =
  Legacy.readLoop icmpInterval pingHost rest (Legacy.afterMismatch icmpInterval r data st).
Proof.
  intros Hd Hr Ht Hlen Hm. simpl. rewrite Hd, Hr, Ht. simpl.
  destruct (Nat.ltb_spec (List.length (readInto data (Legacy.buf st))) 8) as [Hlt|_];
    [lia|].
  destruct (Legacy.replyMatches _ addr pingHost _) eqn:E; [|reflexivity].
  exfalso. apply Hm. apply legacy_replyMatches_iff in E. exact E.
Qed.

(** The scenario of C3 on the older [pingLoop]: the first request there is
    numbered 1; a stale reply numbered 0 followed by the reply numbered 1
    ends the iteration with a delivered event. *)
Example legacy_stale_then_correct :
  let env := {| Legacy.nowWrite := 0; Legacy.setWriteDeadlineErr := None;
                Legacy.writeToErr := None; Legacy.nowStart := 0;
                Legacy.reads := [attempt (echoReply 0) false;
                                 attempt (echoReply 1) false];
                Legacy.nowStop := 5000000 |} in
  let out := Legacy.pingCycle (lib := wireLib) second host env
                              Legacy.mainStart in
  fst out = Some (Returned tt) /\
  requests (Legacy.calls (snd out)) = [Legacy.icmpMessage (Legacy.withSeq 1 Legacy.mainStart)] /\
  map Legacy.dropped (Legacy.updateChan (snd out)) = [false] /\
  readCount (Legacy.calls (snd out)) = 2%nat.
Proof. vm_compute. repeat split; reflexivity. Qed.

(** Sequence numbers of the older [pingLoop]: each iteration moves
    [icmpBody.Seq] to its successor modulo 65536 before the request is
    marshalled. *)
Lemma legacy_advanceSeq (st : Legacy.State) :
  0 <= Legacy.bodySeq st <= 65535 ->
  Legacy.bodySeq (Legacy.advanceSeq st) = (Legacy.bodySeq st + 1) mod 65536 /\
  0 <= Legacy.bodySeq (Legacy.advanceSeq st) <= 65535.
Proof.
  intros H. unfold Legacy.advanceSeq.
  rewrite add64_small by (unfold MinInt64, MaxInt64; lia).
  destruct (Legacy.bodySeq st + 1 =? 65536) eqn:E; simpl.
  - apply Z.eqb_eq in E. rewrite E. split; [reflexivity|lia].
  - apply Z.eqb_neq in E. rewrite Z.mod_small by lia. lia.
Qed.

End StaleReplies.

(** ** The older [pingLoop] *)

Section LegacyFacts.
Import Go Icmp Legacy.
Context {lib : Library}.

(** [icmpMessage] is the request [sendPing] builds, numbered by
    [icmpBody.Seq]. *)
Lemma legacy_icmpMessage (st : State) :
  icmpMessage st = Monitor.echoRequest (bodySeq st).
Proof. reflexivity. Qed.

(** [readLoop] leaves [icmpBody.Seq] alone, marshals nothing, and sends an
    event only when it gives up, a dropped one. *)
Lemma legacy_readLoop_frame (icmpInterval : Z) (pingHost : string)
    (reads : list ReadAttempt) : forall st r st',
  readLoop icmpInterval pingHost reads st = (r, st') ->
  bodySeq st' = bodySeq st /\
  requests (calls st') = requests (calls st) /\
  match r with
  | Some (Returned false) =>
      exists u, updateChan st' = updateChan st ++ [u] /\ dropped u = true
  | _ => updateChan st' = updateChan st
  end.
Proof.
  induction reads as [|a reads IH]; intros st r st' H.
  - simpl in H. inversion H; subst. auto.
  - simpl in H.
    destruct (setReadDeadlineErr a).
    { inversion H; subst; simpl. rewrite requests_app. simpl.
      rewrite app_nil_r. auto. }
    assert (Hsel : forall st0,
      bodySeq st0 = bodySeq st ->
      requests (calls st0) = requests (calls st) ->
      updateChan st0 = updateChan st ->
      (if tickerFired a
       then (Some (Returned false),
             chanSend {| dropped := true; seqNumber := bodySeq st0;
                         rttStart := 0; rttStop := 0 |} st0)
       else readLoop icmpInterval pingHost reads st0) = (r, st') ->
      bodySeq st' = bodySeq st /\
      requests (calls st') = requests (calls st) /\
      match r with
      | Some (Returned false) =>
          exists u, updateChan st' = updateChan st ++ [u] /\ dropped u = true
      | _ => updateChan st' = updateChan st
      end).
    { intros st0 Hq Hr Hu Hs. destruct (tickerFired a).
      - inversion Hs; subst; simpl. rewrite Hu. eauto.
      - apply IH in Hs. rewrite <- Hq, <- Hr, <- Hu. exact Hs. }
    destruct (readFromRes a) as [data addr|e].
    + cbv zeta in H.
      destruct (List.length _ <? 8)%nat.
      { inversion H; subst; simpl. rewrite !requests_app. simpl.
        rewrite !app_nil_r. auto. }
      destruct (replyMatches _ _ _ _).
      { inversion H; subst; simpl. rewrite !requests_app. simpl.
        rewrite !app_nil_r. auto. }
      match type of H with
      | (if _ then _ else readLoop _ _ _ ?s) = _ => apply (Hsel s) in H
      end; simpl; rewrite ?requests_app; simpl; rewrite ?app_nil_r; auto.
    + match type of H with
      | (if _ then _ else readLoop _ _ _ ?s) = _ => apply (Hsel s) in H
      end; simpl; rewrite ?requests_app; simpl; rewrite ?app_nil_r; auto.
Qed.

(** One completed iteration of the older [pingLoop] builds one request,
    numbered with the successor modulo 65536 of the previous number. *)
Lemma legacy_pingCycle_request (icmpInterval : Z) (pingHost : string)
    (env : CycleEnv) (st st' : State) :
  0 <= bodySeq st <= 65535 ->
  pingCycle icmpInterval pingHost env st = (Some (Returned tt), st') ->
  bodySeq st' = (bodySeq st + 1) mod 65536 /\
  requests (calls st') =
    requests (calls st)
    ++ [Monitor.echoRequest ((bodySeq st + 1) mod 65536)].
Proof.
  intros Hseq H. unfold pingCycle in H.
  destruct (legacy_advanceSeq st Hseq) as [Hadv _].
  remember (advanceSeq st) as st0 eqn:E0.
  assert (Hc0 : calls st0 = calls st).
  { subst st0. unfold advanceSeq. destruct (_ =? _); reflexivity. }
  rewrite legacy_icmpMessage in H.
  destruct (Marshal _); [|discriminate H].
  destruct (setWriteDeadlineErr env); [discriminate H|].
  destruct (writeToErr env).
  - inversion H; subst st'; simpl. rewrite <- !app_assoc, requests_app.
    simpl. rewrite Hc0, Hadv. auto.
  - destruct (readLoop _ _ _ _) as [r st1] eqn:Er.
    apply legacy_readLoop_frame in Er. destruct Er as (Hq & Hr & _).
    simpl in Hq, Hr. rewrite <- !app_assoc, requests_app in Hr.
    simpl in Hr. rewrite Hc0, Hadv in Hr. rewrite Hadv in Hq.
    destruct r as [[[|]|c|]|]; try discriminate H;
      inversion H; subst st'; simpl; auto.
Qed.

(** In a run of the older [pingLoop] from its start state the [k]-th
    request built (counting from 0) carries [(k + 1) mod 65536]: the first
    request is numbered 1, and 0 is first used by the 65536th. *)
Lemma legacy_pingLoop_requests (icmpInterval : Z) (pingHost : string)
    (envs : list CycleEnv) : forall st st',
  0 <= bodySeq st <= 65535 ->
  pingLoop icmpInterval pingHost envs st = (Some (Returned tt), st') ->
  requests (calls st') =
    requests (calls st)
    ++ map (fun k => Monitor.echoRequest
                       ((bodySeq st + 1 + Z.of_nat k) mod 65536))
           (List.seq 0 (List.length envs)).
Proof.
  induction envs as [|env rest IH]; intros st st' Hseq H.
  - simpl in H. inversion H; subst. simpl. rewrite app_nil_r. reflexivity.
  - simpl in H. destruct (pingCycle _ _ env st) as [r st1] eqn:Ec.
    destruct r as [[[]|c|]|]; try discriminate H.
    destruct (legacy_pingCycle_request _ _ _ _ _ Hseq Ec) as [Hq Hr].
    assert (Hmod : 0 <= (bodySeq st + 1) mod 65536 < 65536)
      by (apply Z.mod_pos_bound; lia).
    rewrite (IH st1 st') by (try exact H; lia).
    rewrite Hr, <- app_assoc. f_equal.
    change (List.length (env :: rest)) with (S (List.length rest)).
    rewrite map_seq_succ. simpl app. rewrite Z.add_0_r. f_equal.
    apply map_ext. intros k. f_equal.
    rewrite Hq, Nat2Z.inj_succ.
    replace ((bodySeq st + 1) mod 65536 + 1 + Z.of_nat k)
      with ((bodySeq st + 1) mod 65536 + (1 + Z.of_nat k)) by lia.
    rewrite Zplus_mod_idemp_l. f_equal; lia.
Qed.

End LegacyFacts.

(* ================================================================== *)
(** * Further properties of the code *)

(** ** The receive buffer *)

Section BufferFacts.
Import Icmp.

Lemma readInto_length (data buf : list Z) :
  List.length (readInto data buf) = List.length buf.
Proof.
  revert buf. induction data as [|d data IH]; intros [|b buf]; simpl; auto.
Qed.

Lemma flushBuf_length (buf : list Z) (len : nat) :
  List.length (flushBuf buf len) = List.length buf.
Proof.
  revert buf. induction len as [|k IH]; intros [|b buf]; simpl; auto.
Qed.

Lemma flushBuf_nth_aux (len : nat) : forall (buf : list Z) (i : nat),
  nth i (flushBuf buf len) 0 = if (i <? len)%nat then 0 else nth i buf 0.
Proof.
  induction len as [|k IH]; intros buf i.
  - destruct buf; reflexivity.
  - destruct buf as [|b buf]; simpl flushBuf.
    + assert (E : nth i (@nil Z) 0 = 0) by (destruct i; reflexivity).
      rewrite E. destruct (i <? S k)%nat; reflexivity.
    + destruct i as [|i]; [reflexivity|]. simpl nth. rewrite IH.
      reflexivity.
Qed.

(** After a read and the flush that follows it, the bytes the datagram
    overwrote are zero and the rest of the buffer is as it was. *)
Lemma flush_after_read (data : list Z) : forall buf : list Z,
  flushBuf (readInto data buf) (numBytes data buf) =
  repeat 0 (numBytes data buf) ++ skipn (numBytes data buf) buf.
Proof.
  unfold numBytes.
  induction data as [|d data IH]; intros [|b buf]; simpl; try reflexivity.
  rewrite IH. reflexivity.
Qed.

Lemma zeroed_repeat (n : nat) : zeroed (repeat 0 n).
Proof. unfold zeroed. rewrite repeat_length. reflexivity. Qed.

Lemma skipn_repeat (k n : nat) :
  skipn k (repeat 0 n) = repeat 0 (n - k).
Proof.
  revert n. induction k as [|k IH]; intros n.
  - rewrite Nat.sub_0_r. reflexivity.
  - destruct n as [|n]; [reflexivity|]. simpl. apply IH.
Qed.

(** On a zeroed buffer the read and the flush cancel out. *)
Lemma flush_after_read_zeroed (data buf : list Z) :
  zeroed buf ->
  flushBuf (readInto data buf) (numBytes data buf) = buf.
Proof.
  intros Hz. rewrite flush_after_read. unfold zeroed in Hz.
  remember (List.length buf) as n eqn:En. clear En. subst buf.
  unfold numBytes. rewrite repeat_length, skipn_repeat, <- repeat_app.
  f_equal. lia.
Qed.

(** X1. For [len] within the buffer (beyond it the Go loop indexes out of
    range and panics), [flushBuf(buf, len)] keeps the length of the buffer,
    sets every byte at a position below [len] to zero and leaves every
    other byte untouched. *)
Theorem flushBuf_zeroes_prefix (buf : list Z) (len i : nat) :
  (len <= List.length buf)%nat ->
  List.length (flushBuf buf len) = List.length buf /\
  nth i (flushBuf buf len) 0 = if (i <? len)%nat then 0 else nth i buf 0.
Proof. intros _. split; [apply flushBuf_length|apply flushBuf_nth_aux]. Qed.

Lemma flushBuf_zeroes_prefix_witness :
  List.length (flushBuf [8; 0; 247; 255; 0; 1] 4) = 6%nat /\
  nth 3 (flushBuf [8; 0; 247; 255; 0; 1] 4) 0 = 0 /\
  nth 5 (flushBuf [8; 0; 247; 255; 0; 1] 4) 0 = 1.
Proof.
  split; [|split].
  - apply (flushBuf_zeroes_prefix [8; 0; 247; 255; 0; 1] 4 0). simpl. lia.
  - apply (flushBuf_zeroes_prefix [8; 0; 247; 255; 0; 1] 4 3). simpl. lia.
  - apply (flushBuf_zeroes_prefix [8; 0; 247; 255; 0; 1] 4 5). simpl. lia.
Defined.

End BufferFacts.

(** ** The loop of [main]: outcomes, buffer, call order *)

Section ProberExtras.
Import Go Icmp Monitor.
Context {lib : Library}.

Lemma listenCount_app (xs ys : list Call) :
  listenCount (xs ++ ys) = (listenCount xs + listenCount ys)%nat.
Proof.
  induction xs as [|c xs IH]; [reflexivity|].
  destruct c; simpl; rewrite IH; reflexivity.
Qed.

Lemma deadlineGuarded_app (xs ys : list Call) : forall prev : option Call,
  deadlineGuarded prev (xs ++ ys) =
  deadlineGuarded prev xs && deadlineGuarded (lastCall prev xs) ys.
Proof.
  induction xs as [|c xs IH]; intros prev; [reflexivity|].
  simpl. rewrite IH, andb_assoc. reflexivity.
Qed.

(** A log stays guarded when a chunk is appended that is guarded whatever
    came before it. *)
Lemma deadlineGuarded_chunk (xs chunk : list Call) :
  (forall prev, deadlineGuarded prev chunk = true) ->
  deadlineGuarded None (xs ++ chunk) = deadlineGuarded None xs.
Proof.
  intros H. rewrite deadlineGuarded_app, H, andb_true_r. reflexivity.
Qed.

(** [sendPing] with a deadline, as one equation. *)
Lemma sendPing_eq (d : Z) (env : SendEnv) (target : string) (st : State) :
  sendPing (Some d) env target st =
  let s := if seq st =? 65536 then 0 else seq st in
  match Marshal (echoRequest s) with
  | inr _ =>
      (Exited 1,
       {| seq := s; rcvBuf := rcvBuf st;
          calls := calls st ++ [CallMarshal (echoRequest s)];
          updateChan := updateChan st |})
  | inl req =>
      (Returned (sendError env),
       {| seq := add64 s 1; rcvBuf := rcvBuf st;
          calls := calls st
                   ++ CallMarshal (echoRequest s)
                   :: CallSetWriteDeadline d
                   :: match setWriteDeadlineErr env with
                      | Some _ => []
                      | None => [CallWriteTo req target]
                      end;
          updateChan := updateChan st |})
  end.
Proof.
  unfold sendPing, sendError.
  destruct (seq st =? 65536); simpl;
    (destruct (Marshal _);
     [destruct (setWriteDeadlineErr env);
      [|destruct (writeToErr env)]|]);
    unfold deferredIncr, logCall, withSeq; simpl;
    rewrite <- ?app_assoc; reflexivity.
Qed.

(** [receivePing] with a deadline on a buffer of at least 8 bytes, as one
    equation. *)
Lemma receivePing_eq (d : Z) (env : RecvEnv) (target : string) (st : State) :
  (8 <= List.length (rcvBuf st))%nat ->
  receivePing (Some d) env target st =
  match setReadDeadlineErr env with
  | Some e =>
      (Returned (false, Some e),
       {| seq := seq st; rcvBuf := rcvBuf st;
          calls := calls st ++ [CallSetReadDeadline d];
          updateChan := updateChan st |})
  | None =>
      match readFromRes env with
      | ReadFail e =>
          (Returned (false, Some e),
           {| seq := seq st; rcvBuf := rcvBuf st;
              calls := calls st ++ [CallSetReadDeadline d; CallReadFrom];
              updateChan := updateChan st |})
      | ReadOk data addr =>
          (Returned
             (replyMatches (readInto data (rcvBuf st)) addr target st, None),
           {| seq := seq st;
              rcvBuf := flushBuf (readInto data (rcvBuf st))
                                 (numBytes data (rcvBuf st));
              calls := calls st ++ [CallSetReadDeadline d; CallReadFrom];
              updateChan := updateChan st |})
      end
  end.
Proof.
  intros Hlen. unfold receivePing.
  destruct (setReadDeadlineErr env); [reflexivity|].
  destruct (readFromRes env) as [data addr|e];
    unfold logCall; simpl; rewrite <- ?app_assoc; [|reflexivity].
  destruct (Nat.ltb_spec (List.length (readInto data (rcvBuf st))) 8)
    as [Hlt|_]; [rewrite readInto_length in Hlt; lia|].
  change (replyMatches (readInto data (rcvBuf st)) addr target _)
    with (replyMatches (readInto data (rcvBuf st)) addr target st).
  destruct (replyMatches _ _ _ st); reflexivity.
Qed.

(** Splits one iteration of the loop of [main] into the cases of its
    source: marshal failure; a failed send that asks for a new listener,
    with and without success; then the three ways the read can go. *)
Ltac cycle_cases Hlen :=
  unfold cycle; rewrite sendPing_eq; cbv zeta;
  destruct (Marshal _) as [req|em] eqn:EM;
  [ unfold relistens;
    destruct (sendError _) as [es|] eqn:Ese;
    [ destruct (isDeadlineExceeded es) eqn:Ede;
      [ destruct (listenErr _) as [el|] eqn:Eli |] |];
    try (rewrite receivePing_eq by (simpl; exact Hlen);
         destruct (setReadDeadlineErr _) as [er|] eqn:Esr;
         [| destruct (readFromRes _) as [data addr|er] eqn:Erd ])
  | ]; cbn [fst snd seq rcvBuf calls updateChan logCall chanSend andb].

(** X2. One iteration ends the process, with status 1, exactly when the
    request cannot be marshalled, or the send failed with a deadline error
    and the new listener cannot be opened; otherwise it completes.  A new
    listener is opened exactly when the request was marshalled and the send
    failed with a deadline error. *)
Theorem cycle_outcome (icmpInterval : Z) (pingHost : string) (env : CycleEnv)
    (st : State) :
  (8 <= List.length (rcvBuf st))%nat ->
  let s := if seq st =? 65536 then 0 else seq st in
  let out := cycle icmpInterval pingHost env st in
  fst out =
    match Marshal (echoRequest s) with
    | inr _ => Exited 1
    | inl _ =>
        if relistens (sendEnv env)
           && match listenErr env with Some _ => true | None => false end
        then Exited 1 else Returned tt
    end /\
  listenCount (calls (snd out)) =
    (listenCount (calls st)
     + match Marshal (echoRequest s) with
       | inl _ => if relistens (sendEnv env) then 1 else 0
       | inr _ => 0
       end)%nat.
Proof.
  intros Hlen s out. subst s out.
  cycle_cases Hlen;
    rewrite ?listenCount_app; simpl;
    try (destruct (setWriteDeadlineErr (sendEnv env)); simpl);
    rewrite ?listenCount_app; simpl; split; try reflexivity; lia.
Qed.

(** One iteration keeps the length of the buffer, and keeps a zeroed
    buffer zeroed. *)
Lemma cycle_buffer (icmpInterval : Z) (pingHost : string) (env : CycleEnv)
    (st : State) :
  (8 <= List.length (rcvBuf st))%nat ->
  List.length (rcvBuf (snd (cycle icmpInterval pingHost env st))) =
    List.length (rcvBuf st) /\
  (zeroed (rcvBuf st) ->
   rcvBuf (snd (cycle icmpInterval pingHost env st)) = rcvBuf st).
Proof.
  intros Hlen.
  cycle_cases Hlen;
    rewrite ?flushBuf_length, ?readInto_length;
    (split; [reflexivity|]); intros Hz;
    try reflexivity; apply flush_after_read_zeroed; exact Hz.
Qed.

Lemma mainLoop_buffer (icmpInterval : Z) (pingHost : string)
    (envs : list CycleEnv) : forall st : State,
  (8 <= List.length (rcvBuf st))%nat ->
  zeroed (rcvBuf st) ->
  rcvBuf (snd (mainLoop icmpInterval pingHost envs st)) = rcvBuf st.
Proof.
  induction envs as [|env rest IH]; intros st Hlen Hz; [reflexivity|].
  simpl. destruct (cycle_buffer icmpInterval pingHost env st Hlen) as [Hl Hb].
  specialize (Hb Hz).
  destruct (cycle icmpInterval pingHost env st) as [r st1].
  simpl in Hl, Hb. destruct r as [[]|c|]; simpl; try exact Hb.
  rewrite IH; rewrite Hb; auto.
Qed.

Lemma mainLoop_result (icmpInterval : Z) (pingHost : string)
    (envs : list CycleEnv) : forall st : State,
  (8 <= List.length (rcvBuf st))%nat ->
  fst (mainLoop icmpInterval pingHost envs st) = Returned tt \/
  fst (mainLoop icmpInterval pingHost envs st) = Exited 1.
Proof.
  induction envs as [|env rest IH]; intros st Hlen; [left; reflexivity|].
  simpl.
  destruct (cycle_outcome icmpInterval pingHost env st Hlen) as [Ho _].
  destruct (cycle_buffer icmpInterval pingHost env st Hlen) as [Hl _].
  destruct (cycle icmpInterval pingHost env st) as [r st1].
  simpl in Ho, Hl.
  destruct r as [[]|c|].
  - apply IH. rewrite Hl. exact Hlen.
  - right. simpl. rewrite Ho.
    destruct (Marshal _); [|reflexivity].
    destruct (_ && _); [reflexivity|discriminate Ho].
  - exfalso. destruct (Marshal _); [|discriminate Ho].
    destruct (_ && _); discriminate Ho.
Qed.

Lemma mainStart_buffer :
  (8 <= List.length (rcvBuf mainStart))%nat /\ zeroed (rcvBuf mainStart).
Proof.
  unfold mainStart. cbn [rcvBuf]. split.
  - rewrite repeat_length. apply Nat.leb_le. vm_compute. reflexivity.
  - apply zeroed_repeat.
Qed.

(** X3. However many iterations the loop of [main] runs and whatever the
    network answers, the receive buffer holds 1500 zero bytes between
    iterations: each datagram is wiped before the next read, so the bytes
    6 and 7 that [receivePing] reads come from the current datagram or are
    zero. *)
Theorem buffer_stays_zeroed (icmpInterval : Z) (pingHost : string)
    (envs : list CycleEnv) :
  rcvBuf (snd (mainLoop icmpInterval pingHost envs mainStart)) =
  repeat 0 1500%nat.
Proof.
  destruct mainStart_buffer as [Hlen Hz].
  rewrite mainLoop_buffer by assumption. reflexivity.
Qed.

(** X4. The loop of [main] never panics on the index expressions
    [rcvBuf[6]] and [rcvBuf[7]], and when it ends the process the exit
    status is 1. *)
Theorem mainLoop_never_panics (icmpInterval : Z) (pingHost : string)
    (envs : list CycleEnv) :
  fst (mainLoop icmpInterval pingHost envs mainStart) = Returned tt \/
  fst (mainLoop icmpInterval pingHost envs mainStart) = Exited 1.
Proof. apply mainLoop_result. apply mainStart_buffer. Qed.

(** X5. When the library marshals every echo request and no iteration
    both fails its send with a deadline error and fails to reopen the
    listener, the loop of [main] completes every iteration, whatever else
    the network answers. *)
Theorem mainLoop_completes (icmpInterval : Z) (pingHost : string)
    (envs : list CycleEnv) (st : State) :
  (forall s, exists req, Marshal (echoRequest s) = inl req) ->
  Forall (fun env => relistens (sendEnv env) = false \/ listenErr env = None)
         envs ->
  (8 <= List.length (rcvBuf st))%nat ->
  exists st', mainLoop icmpInterval pingHost envs st = (Returned tt, st').
Proof.
  intros Hm Hall. revert st.
  induction Hall as [|env rest Henv _ IH]; intros st Hlen.
  - exists st. reflexivity.
  - simpl.
    destruct (cycle_outcome icmpInterval pingHost env st Hlen) as [Ho _].
    destruct (cycle_buffer icmpInterval pingHost env st Hlen) as [Hl _].
    destruct (cycle icmpInterval pingHost env st) as [r st1].
    simpl in Ho, Hl.
    destruct (Hm (if seq st =? 65536 then 0 else seq st)) as [req Hreq].
    rewrite Hreq in Ho.
    assert (Hr : r = Returned tt).
    { rewrite Ho. destruct Henv as [E|E]; rewrite E; [reflexivity|].
      rewrite andb_false_r. reflexivity. }
    clear Ho. subst r. apply IH. rewrite Hl. exact Hlen.
Qed.

(** The event a completed iteration sends. *)
Lemma cycle_event (icmpInterval : Z) (pingHost : string) (env : CycleEnv)
    (st : State) :
  (8 <= List.length (rcvBuf st))%nat ->
  fst (cycle icmpInterval pingHost env st) = Returned tt ->
  exists u,
    updateChan (snd (cycle icmpInterval pingHost env st)) =
      updateChan st ++ [u] /\
    seqNumber u = seq (snd (cycle icmpInterval pingHost env st)) /\
    rttStart u = nowStart env /\ rttStop u = nowStop env.
Proof.
  intros Hlen.
  cycle_cases Hlen; intros Hf; try discriminate Hf;
    eexists; repeat split; reflexivity.
Qed.

Lemma mainLoop_event_fields (icmpInterval : Z) (pingHost : string)
    (envs : list CycleEnv) : forall st st',
  (8 <= List.length (rcvBuf st))%nat ->
  0 <= seq st <= 65536 ->
  mainLoop icmpInterval pingHost envs st = (Returned tt, st') ->
  exists us,
    updateChan st' = updateChan st ++ us /\
    map seqNumber us =
      map (fun k => (seq st + Z.of_nat k) mod 65536 + 1)
          (List.seq 0 (List.length envs)) /\
    map rttStart us = map nowStart envs /\
    map rttStop us = map nowStop envs.
Proof.
  induction envs as [|env rest IH]; intros st st' Hlen Hseq H.
  - simpl in H. inversion H; subst. exists []. rewrite app_nil_r. auto.
  - apply mainLoop_cons in H. destruct H as (st1 & Hc & Hl).
    destruct (cycle_returned _ _ _ _ _ Hseq Hc) as (Hs1 & _).
    destruct (cycle_buffer icmpInterval pingHost env st Hlen) as [Hb _].
    destruct (cycle_event icmpInterval pingHost env st Hlen)
      as (u & Hu & Hn & Ha & Ho); [rewrite Hc; reflexivity|].
    rewrite Hc in Hb, Hu, Hn. simpl in Hb, Hu, Hn.
    assert (Hmod : 0 <= seq st mod 65536 < 65536)
      by (apply Z.mod_pos_bound; lia).
    destruct (IH st1 st') as (us & Hus & Hnum & Hst & Hsp);
      [lia|lia|exact Hl|].
    exists (u :: us). rewrite Hus, Hu, <- app_assoc.
    split; [reflexivity|].
    change (List.length (env :: rest)) with (S (List.length rest)).
    rewrite map_seq_succ. cbn [map].
    rewrite Hnum, Hst, Hsp, Ha, Ho, Hn, Hs1.
    change (Z.of_nat 0) with 0. rewrite Z.add_0_r.
    split; [|split; reflexivity].
    f_equal. apply map_ext. intros k. f_equal.
    rewrite Nat2Z.inj_succ.
    replace (seq st mod 65536 + 1 + Z.of_nat k)
      with (seq st mod 65536 + (1 + Z.of_nat k)) by lia.
    rewrite Zplus_mod_idemp_l. f_equal; lia.
Qed.

(** X6. The [seqNumber] of the event for the [k]-th request (counting from
    0) is [k mod 65536 + 1], one more than the sequence number the request
    carried: [main] reads [seq] after [sendPing] has incremented it.  The
    two time stamps of the event are the clock readings of [main] before
    the send and after the receive. *)
Theorem event_fields (icmpInterval : Z) (pingHost : string)
    (envs : list CycleEnv) (st' : State) :
  mainLoop icmpInterval pingHost envs mainStart = (Returned tt, st') ->
  map seqNumber (updateChan st') =
    map (fun k => Z.of_nat k mod 65536 + 1) (List.seq 0 (List.length envs)) /\
  map rttStart (updateChan st') = map nowStart envs /\
  map rttStop (updateChan st') = map nowStop envs.
Proof.
  intros H. destruct mainStart_buffer as [Hlen _].
  assert (Hseq : 0 <= seq mainStart <= 65536) by (simpl; lia).
  destruct (mainLoop_event_fields icmpInterval pingHost envs mainStart st'
              Hlen Hseq H) as (us & Hus & Hn & Ha & Ho).
  rewrite Hus. simpl app. auto.
Qed.

Lemma cycle_guarded (icmpInterval : Z) (pingHost : string) (env : CycleEnv)
    (st : State) :
  (8 <= List.length (rcvBuf st))%nat ->
  deadlineGuarded None (calls (snd (cycle icmpInterval pingHost env st))) =
  deadlineGuarded None (calls st).
Proof.
  intros Hlen.
  cycle_cases Hlen;
    rewrite <- ?app_assoc; apply deadlineGuarded_chunk; intros prev;
    simpl; destruct (setWriteDeadlineErr (sendEnv env)); reflexivity.
Qed.

Lemma mainLoop_guarded (icmpInterval : Z) (pingHost : string)
    (envs : list CycleEnv) : forall st : State,
  (8 <= List.length (rcvBuf st))%nat ->
  deadlineGuarded None (calls (snd (mainLoop icmpInterval pingHost envs st))) =
  deadlineGuarded None (calls st).
Proof.
  induction envs as [|env rest IH]; intros st Hlen; [reflexivity|].
  simpl.
  pose proof (cycle_guarded icmpInterval pingHost env st Hlen) as Hg.
  destruct (cycle_buffer icmpInterval pingHost env st Hlen) as [Hl _].
  destruct (cycle icmpInterval pingHost env st) as [r st1].
  simpl in Hg, Hl. destruct r as [[]|c|]; simpl; try exact Hg.
  rewrite IH; [exact Hg|]. rewrite Hl. exact Hlen.
Qed.

(** X7. In every run of the loop of [main], each [WriteTo] on the
    connection comes directly after a [SetWriteDeadline] and each [ReadFrom]
    directly after a [SetReadDeadline]: no write or read is issued without
    its deadline having just been set. *)
Theorem io_is_deadline_guarded (icmpInterval : Z) (pingHost : string)
    (envs : list CycleEnv) :
  deadlineGuarded None
    (calls (snd (mainLoop icmpInterval pingHost envs mainStart))) = true.
Proof.
  destruct mainStart_buffer as [Hlen _].
  rewrite mainLoop_guarded by exact Hlen. reflexivity.
Qed.

End ProberExtras.

(** ** The aggregator: minimum, maximum, mean and published counts *)

Section AggregatorExtras.
Import Go Monitor Spec.

Lemma fold_min_spec (xs : list Z) : forall a : Z,
  fold_left Z.min xs a <= a /\
  (forall x, In x xs -> fold_left Z.min xs a <= x) /\
  (fold_left Z.min xs a = a \/ In (fold_left Z.min xs a) xs).
Proof.
  induction xs as [|y xs IH]; intros a; simpl.
  - split; [lia|]. split; [intros x []|left; reflexivity].
  - destruct (IH (Z.min a y)) as (H1 & H2 & H3).
    split; [lia|]. split.
    + intros x [Hx|Hx]; [subst; lia|apply H2; exact Hx].
    + destruct H3 as [H3|H3]; [|right; right; exact H3].
      rewrite H3. destruct (Z.min_spec a y) as [[_ E]|[_ E]]; rewrite E; auto.
Qed.

Lemma fold_max_spec (xs : list Z) : forall a : Z,
  a <= fold_left Z.max xs a /\
  (forall x, In x xs -> x <= fold_left Z.max xs a) /\
  (fold_left Z.max xs a = a \/ In (fold_left Z.max xs a) xs).
Proof.
  induction xs as [|y xs IH]; intros a; simpl.
  - split; [lia|]. split; [intros x []|left; reflexivity].
  - destruct (IH (Z.max a y)) as (H1 & H2 & H3).
    split; [lia|]. split.
    + intros x [Hx|Hx]; [subst; lia|apply H2; exact Hx].
    + destruct H3 as [H3|H3]; [|right; right; exact H3].
      rewrite H3. destruct (Z.max_spec a y) as [[_ E]|[_ E]]; rewrite E; auto.
Qed.

Lemma samples_cons (u : packetUpdate) (us : list packetUpdate) :
  samples (u :: us) =
  if received u then rttOf u :: samples us else samples us.
Proof. unfold samples. simpl. destruct (received u); reflexivity. Qed.

Lemma onUpdate_min_max (u : packetUpdate) (s : AggState) :
  rttMin (onUpdate u s) =
    (if received u then Z.min (rttMin s) (rttOf u) else rttMin s) /\
  rttMax (onUpdate u s) =
    (if received u then Z.max (rttMax s) (rttOf u) else rttMax s).
Proof.
  unfold onUpdate, rttOf.
  destruct (received u); [|split; reflexivity].
  destruct (rttAvg s =? 0); simpl;
    destruct (Z.ltb_spec (time_Sub (rttStop u) (rttStart u)) (rttMin s));
    destruct (Z.ltb_spec (rttMax s) (time_Sub (rttStop u) (rttStart u)));
    split; lia.
Qed.

(** [rttMin] and [rttMax] fold [min] and [max] over the round-trip times
    of the received events. *)
Lemma window_min_max (us : list packetUpdate) : forall s : AggState,
  rttMin (window us s) = fold_left Z.min (samples us) (rttMin s) /\
  rttMax (window us s) = fold_left Z.max (samples us) (rttMax s).
Proof.
  induction us as [|u us IH]; intros s; [split; reflexivity|].
  rewrite window_cons, samples_cons.
  destruct (IH (onUpdate u s)) as [Hmin Hmax].
  destruct (onUpdate_min_max u s) as [Emin Emax].
  rewrite Hmin, Hmax, Emin, Emax.
  destruct (received u); split; reflexivity.
Qed.

Lemma in_samples (us : list packetUpdate) (x : Z) :
  In x (samples us) <->
  exists u, In u us /\ received u = true /\ rttOf u = x.
Proof.
  unfold samples. rewrite in_map_iff. split.
  - intros (u & E & Hin). apply filter_In in Hin. destruct Hin. eauto.
  - intros (u & Hin & Hr & E). exists u. split; [exact E|].
    apply filter_In. auto.
Qed.

(** X8. In a window started fresh, [rttMin] is at most and [rttMax] at
    least the round-trip time of every received event; [rttMin] is either
    still its start value or the round-trip time of a received event, and
    [rttMax] is either still 0 or the round-trip time of a received event
    (so a negative round-trip time never becomes the maximum). *)
Theorem window_min_max_bounds (us : list packetUpdate) :
  let w := window us aggStart in
  (forall u, In u us -> received u = true ->
     rttMin w <= rttOf u <= rttMax w) /\
  (rttMin w = MaxInt64 \/
   exists u, In u us /\ received u = true /\ rttOf u = rttMin w) /\
  (rttMax w = 0 \/
   exists u, In u us /\ received u = true /\ rttOf u = rttMax w) /\
  0 <= rttMax w.
Proof.
  intros w. subst w.
  destruct (window_min_max us aggStart) as [Emin Emax].
  rewrite Emin, Emax. cbn [rttMin rttMax aggStart].
  destruct (fold_min_spec (samples us) MaxInt64) as (_ & Hmin & Hmin').
  destruct (fold_max_spec (samples us) 0) as (Hpos & Hmax & Hmax').
  repeat split.
  - apply Hmin. apply in_samples. eauto.
  - apply Hmax. apply in_samples. eauto.
  - destruct Hmin' as [E|Hin]; [left; exact E|right].
    apply in_samples. exact Hin.
  - destruct Hmax' as [E|Hin]; [left; exact E|right].
    apply in_samples. exact Hin.
  - exact Hpos.
Qed.

Lemma mul_lt_cancel (p n m : Z) : 0 < p -> p * n < p * m -> n < m.
Proof. intros Hp H. apply (Z.mul_lt_mono_pos_l p); assumption. Qed.

Lemma mul_le_cancel (p n m : Z) : 0 < p -> p * n <= p * m -> n <= m.
Proof. intros Hp H. apply (Z.mul_le_mono_pos_l n m p); assumption. Qed.

(** The arithmetic of one step of the running mean: from a mean [a] of [k]
    samples that is at most the true mean [S / k] and short of it by at
    most [(k - 1) / 2], to the mean of [k + 1] samples. *)
Lemma mean_step (a k x S B : Z) :
  1 <= k -> 1 <= a -> 1 <= x <= B ->
  a * k <= S -> 2 * (S - a * k) <= k * (k - 1) -> S <= k * B ->
  (k + 1) * B <= MaxInt64 ->
  let q := quot64 (add64 (mul64 a k) x) (add64 k 1) in
  add64 k 1 = k + 1 /\
  1 <= q /\ q * (k + 1) <= S + x /\
  2 * (S + x - q * (k + 1)) <= (k + 1) * k /\
  Z.min a x <= q <= Z.max a x.
Proof.
  intros Hk Ha Hx HaS Herr HSB Hbound q.
  assert (Hmax : MaxInt64 = 9223372036854775807) by reflexivity.
  assert (Hmin : MinInt64 = -9223372036854775808) by reflexivity.
  assert (Hak : 1 * k <= a * k)
    by (apply Z.mul_le_mono_nonneg_r; lia).
  assert (HkB : k * 1 <= k * B)
    by (apply Z.mul_le_mono_nonneg_l; lia).
  assert (E1 : mul64 a k = a * k).
  { unfold mul64. apply wrap64_small. lia. }
  assert (E2 : add64 (a * k) x = a * k + x).
  { apply add64_small. lia. }
  assert (E3 : add64 k 1 = k + 1).
  { apply add64_small. lia. }
  assert (Hq : Z.quot (a * k + x) (k + 1) = (a * k + x) / (k + 1)).
  { apply Z.quot_div_nonneg; lia. }
  pose proof (Z.div_mod (a * k + x) (k + 1) ltac:(lia)) as Hdm.
  pose proof (Z.mod_pos_bound (a * k + x) (k + 1) ltac:(lia)) as Hmb.
  assert (Hd0 : 0 <= (a * k + x) / (k + 1))
    by (apply Z.div_pos; lia).
  set (d := (a * k + x) / (k + 1)) in *.
  set (r := (a * k + x) mod (k + 1)) in *.
  assert (Hkd : 0 <= k * d) by (apply Z.mul_nonneg_nonneg; lia).
  assert (Eq : q = d).
  { subst q. rewrite E1, E2, E3. unfold quot64. rewrite Hq.
    apply wrap64_small. lia. }
  rewrite Eq. clear Eq q E1 E2 Hq Hmax Hmin Hbound HkB HSB.
  assert (Hd1 : 1 <= d).
  { assert (0 < d) by (apply (mul_lt_cancel (k + 1)); lia). lia. }
  split; [exact E3|]. split; [exact Hd1|].
  split; [lia|]. split; [lia|].
  destruct (Z.min_spec a x) as [[Hlt Em]|[Hle Em]];
    destruct (Z.max_spec a x) as [[Hlt' EM]|[Hle' EM]];
    rewrite Em, EM; clear Em EM.
  - assert (Hax : a * k <= x * k)
      by (apply Z.mul_le_mono_nonneg_r; lia).
    split.
    + assert (a - 1 < d) by (apply (mul_lt_cancel (k + 1)); lia). lia.
    + apply (mul_le_cancel (k + 1)); lia.
  - lia.
  - lia.
  - assert (Hax : x * k <= a * k)
      by (apply Z.mul_le_mono_nonneg_r; lia).
    split.
    + assert (x - 1 < d) by (apply (mul_lt_cancel (k + 1)); lia). lia.
    + apply (mul_le_cancel (k + 1)); lia.
Qed.

(** The mean after a window, against the samples it has seen: [k] counts
    them and [S] is their sum. *)
Lemma window_mean_inv (B : Z) (us : list packetUpdate) :
  forall (s : AggState) (k S : Z),
  0 <= k ->
  (k = 0 /\ rttAvg s = 0 /\ rttAvgCnt s = 1 /\ S = 0 \/
   1 <= k /\ rttAvgCnt s = k /\ 1 <= rttAvg s /\
   rttAvg s * k <= S /\ 2 * (S - rttAvg s * k) <= k * (k - 1) /\
   S <= k * B /\ rttMin s <= rttAvg s <= rttMax s) ->
  Forall (fun x => 1 <= x <= B) (samples us) ->
  (k + Z.of_nat (List.length (samples us))) * B <= MaxInt64 ->
  let w := window us s in
  let n := k + Z.of_nat (List.length (samples us)) in
  let T := S + sumZ (samples us) in
  n = 0 /\ rttAvg w = 0 /\ rttAvgCnt w = 1 /\ T = 0 \/
  1 <= n /\ rttAvgCnt w = n /\ 1 <= rttAvg w /\
  rttAvg w * n <= T /\ 2 * (T - rttAvg w * n) <= n * (n - 1) /\
  T <= n * B /\ rttMin w <= rttAvg w <= rttMax w.
Proof.
  induction us as [|u us IH]; intros s k S Hk Hinv Hall Hb.
  - simpl. rewrite !Z.add_0_r. exact Hinv.
  - rewrite window_cons. rewrite samples_cons in *.
    destruct (received u) eqn:Hu.
    + inversion Hall as [|x xs Hx Hxs]; subst x xs.
      simpl List.length in *. simpl sumZ in *.
      rewrite Nat2Z.inj_succ in *.
      assert (HB : 1 <= B) by lia.
      assert (Hlen : 0 <= Z.of_nat (List.length (samples us))) by lia.
      destruct (onUpdate_min_max u s) as [Emin Emax].
      rewrite Hu in Emin, Emax.
      assert (Hstep :
        1 <= k + 1 /\ rttAvgCnt (onUpdate u s) = k + 1 /\
        1 <= rttAvg (onUpdate u s) /\
        rttAvg (onUpdate u s) * (k + 1) <= S + rttOf u /\
        2 * (S + rttOf u - rttAvg (onUpdate u s) * (k + 1))
          <= (k + 1) * (k + 1 - 1) /\
        S + rttOf u <= (k + 1) * B /\
        rttMin (onUpdate u s) <= rttAvg (onUpdate u s)
          <= rttMax (onUpdate u s)).
      { rewrite Emin, Emax. unfold onUpdate. rewrite Hu.
        change (time_Sub (rttStop u) (rttStart u)) with (rttOf u).
        destruct Hinv as [(Hk0 & Ha & Hc & HS)|(Hk1 & Hc & Ha & H1 & H2 & H3 & H4)].
        - subst k S.
          destruct (Z.eqb_spec (rttAvg s) 0) as [_|E]; [|lia].
          cbn [rttAvg rttAvgCnt]. rewrite Hc. lia.
        - destruct (Z.eqb_spec (rttAvg s) 0) as [E|_]; [lia|].
          cbn [rttAvg rttAvgCnt]. rewrite Hc.
          assert (HkB : (k + 1) * B <= MaxInt64).
          { apply Z.le_trans
              with ((k + Z.succ (Z.of_nat (List.length (samples us)))) * B);
              [apply Z.mul_le_mono_nonneg_r; lia|exact Hb]. }
          destruct (mean_step (rttAvg s) k (rttOf u) S B)
            as (E3 & Q1 & Q2 & Q3 & Q4); lia. }
      specialize (IH (onUpdate u s) (k + 1) (S + rttOf u)).
      replace (k + Z.succ (Z.of_nat (List.length (samples us))))
        with (k + 1 + Z.of_nat (List.length (samples us))) in * by lia.
      replace (S + (rttOf u + sumZ (samples us)))
        with (S + rttOf u + sumZ (samples us)) by lia.
      apply IH; [lia|right; exact Hstep|exact Hxs|exact Hb].
    + apply IH; try assumption.
      destruct (onUpdate_lost_rtt u s Hu) as (E1 & E2 & E3 & E4).
      rewrite E1, E2, E3, E4. exact Hinv.
Qed.

(** X9. For a window started fresh whose received events have round-trip
    times between 1 ns and [B], with [n * B] within an [int64] for the
    number [n >= 1] of received events: [rttAvgCnt] is [n]; [rttAvg] never
    exceeds the true mean and falls short of it by at most [(n - 1) / 2]
    nanoseconds (each integer division drops a fraction); and [rttAvg]
    lies between [rttMin] and [rttMax]. *)
Theorem window_mean_accuracy (B : Z) (us : list packetUpdate) :
  Forall (fun x => 1 <= x <= B) (samples us) ->
  (1 <= List.length (samples us))%nat ->
  Z.of_nat (List.length (samples us)) * B <= MaxInt64 ->
  let w := window us aggStart in
  let n := Z.of_nat (List.length (samples us)) in
  rttAvgCnt w = n /\
  rttAvg w * n <= sumZ (samples us) /\
  2 * (sumZ (samples us) - rttAvg w * n) <= n * (n - 1) /\
  rttMin w <= rttAvg w <= rttMax w.
Proof.
  intros Hall Hn Hb w n.
  assert (H0 : 0 = 0 /\ rttAvg aggStart = 0 /\ rttAvgCnt aggStart = 1 /\
               0 = 0 \/
               1 <= 0 /\ rttAvgCnt aggStart = 0 /\ 1 <= rttAvg aggStart /\
               rttAvg aggStart * 0 <= 0 /\
               2 * (0 - rttAvg aggStart * 0) <= 0 * (0 - 1) /\
               0 <= 0 * B /\
               rttMin aggStart <= rttAvg aggStart <= rttMax aggStart).
  { left. repeat split; reflexivity. }
  pose proof (window_mean_inv B us aggStart 0 0 (Z.le_refl 0) H0 Hall) as H.
  cbv zeta in H. rewrite !Z.add_0_l in H. specialize (H Hb).
  fold w n in H.
  destruct H as [(Hn0 & _)|(_ & Hc & _ & H1 & H2 & _ & H4)]; [lia|].
  auto.
Qed.

Lemma aggregator_updates (us : list packetUpdate) (rest : list AggInput) :
  forall s : AggState,
  aggregator (map Update us ++ rest) s = aggregator rest (window us s).
Proof.
  induction us as [|u us IH]; intros s; [reflexivity|].
  simpl. rewrite IH. reflexivity.
Qed.

(** X10. A tick that follows [N] events in a fresh window publishes one
    snapshot whose [total_packets] is [N] and whose [dropped_packets] is
    the number of events not marked received, both converted to [float64];
    the loss gauge is the quotient of the two. *)
Theorem flush_publishes_counts (us : list packetUpdate) :
  Z.of_nat (List.length us) <= MaxInt64 ->
  exists p,
    fst (aggregator (map Update us ++ [Tick]) aggStart) = [p] /\
    totalPackets p = float64 (Z.of_nat (List.length us)) /\
    droppedPackets p =
      float64 (Z.of_nat (List.length us) - countReceived us) /\
    packetLossPercentage p = (droppedPackets p / totalPackets p)%float.
Proof.
  intros Hn. rewrite aggregator_updates, aggregator_tick.
  exists (fst (onTick (window us aggStart))).
  destruct (window_counts us aggStart) as [Ht Hd]; simpl; try lia.
  rewrite Ht, Hd. simpl. repeat split.
Qed.

Lemma legacy_aggregator_tick (post : list Legacy.AggInput)
    (s : Legacy.AggState) :
  Legacy.aggregator (Legacy.Tick :: post) s =
  (fst (Legacy.onTick s) :: fst (Legacy.aggregator post Legacy.aggStart),
   snd (Legacy.aggregator post Legacy.aggStart)).
Proof.
  change (Legacy.aggregator (Legacy.Tick :: post) s)
    with (let '(ps, s'') := Legacy.aggregator post Legacy.aggStart in
          (fst (Legacy.onTick s) :: ps, s'')).
  destruct (Legacy.aggregator post Legacy.aggStart); reflexivity.
Qed.

Lemma legacy_onUpdate_agrees (u : Legacy.packetUpdate) (s : Legacy.AggState) :
  Legacy.toMonitorAgg (Legacy.onUpdate u s) =
  onUpdate (Legacy.toMonitorUpdate u) (Legacy.toMonitorAgg s).
Proof.
  unfold Legacy.onUpdate, onUpdate, Legacy.toMonitorUpdate. simpl.
  destruct (Legacy.dropped u); simpl; [reflexivity|].
  destruct (Legacy.rttAvg s =? 0); reflexivity.
Qed.

(** X11. The aggregators of the two generations run in step: on the same
    interleaving of events and ticks (an event being received when it is
    not dropped) they reach the same accumulator, and their snapshots agree
    on every gauge except the minimum.  The minimum differs only for a
    window whose [rttMin] still holds its start value. *)
Theorem generations_agree (inputs : list Legacy.AggInput) :
  forall s : Legacy.AggState,
  Legacy.toMonitorAgg (snd (Legacy.aggregator inputs s)) =
    snd (aggregator (map Legacy.toMonitorInput inputs)
                    (Legacy.toMonitorAgg s)) /\
  Forall2 sameButMin
    (fst (Legacy.aggregator inputs s))
    (fst (aggregator (map Legacy.toMonitorInput inputs)
                     (Legacy.toMonitorAgg s))) /\
  (Legacy.rttMin s <> MaxInt64 ->
   fst (Legacy.onTick s) = fst (onTick (Legacy.toMonitorAgg s))).
Proof.
  induction inputs as [|i inputs IH]; intros s.
  - simpl. split; [reflexivity|]. split; [constructor|].
    intros Hne. unfold Legacy.onTick, onTick, flushedMin. simpl.
    destruct (Z.eqb_spec (Legacy.rttMin s) MaxInt64) as [E|_];
      [contradiction|reflexivity].
  - destruct (IH s) as (_ & _ & Hmin). split; [|split; [|exact Hmin]].
    + destruct i as [u|].
      * simpl. destruct (IH (Legacy.onUpdate u s)) as (H & _ & _).
        rewrite H, legacy_onUpdate_agrees. reflexivity.
      * cbn [map Legacy.toMonitorInput].
        rewrite legacy_aggregator_tick, aggregator_tick. simpl.
        destruct (IH Legacy.aggStart) as (H & _ & _). exact H.
    + destruct i as [u|].
      * simpl. destruct (IH (Legacy.onUpdate u s)) as (_ & H & _).
        rewrite legacy_onUpdate_agrees in H. exact H.
      * cbn [map Legacy.toMonitorInput].
        rewrite legacy_aggregator_tick, aggregator_tick. simpl.
        constructor.
        -- unfold sameButMin. simpl. repeat split.
        -- destruct (IH Legacy.aggStart) as (_ & H & _). exact H.
Qed.

End AggregatorExtras.

(** ** The older [pingLoop]: events, termination and delivery *)

Section LegacyExtras.
Import Go Icmp Legacy Spec.
Context {lib : Library}.

Lemma legacy_advanceSeq_frame (st : State) :
  updateChan (advanceSeq st) = updateChan st /\
  calls (advanceSeq st) = calls st /\ buf (advanceSeq st) = buf st.
Proof. unfold advanceSeq. destruct (_ =? _); auto. Qed.

(** One completed iteration sends one event when its request was written
    and none when the write failed. *)
Lemma legacy_pingCycle_events (icmpInterval : Z) (pingHost : string)
    (env : CycleEnv) (st st' : State) :
  pingCycle icmpInterval pingHost env st = (Some (Returned tt), st') ->
  exists us, updateChan st' = updateChan st ++ us /\
             List.length us = if written env then 1%nat else 0%nat.
Proof.
  unfold pingCycle, written. intros H.
  destruct (legacy_advanceSeq_frame st) as (Hu & _ & _).
  destruct (Marshal _); [|discriminate H].
  destruct (setWriteDeadlineErr env); [discriminate H|].
  destruct (writeToErr env).
  - inversion H; subst st'. simpl. rewrite Hu. exists [].
    rewrite app_nil_r. auto.
  - destruct (readLoop _ _ _ _) as [r st1] eqn:Er.
    apply legacy_readLoop_frame in Er. destruct Er as (_ & _ & He).
    simpl in He. rewrite Hu in He.
    destruct r as [[[|]|c|]|]; try discriminate H;
      inversion H; subst st'; simpl.
    + rewrite He. eauto.
    + destruct He as (u & He & _). rewrite He. eauto.
Qed.

(** X12. In the older generation a run of completed [pingLoop] iterations
    sends one event for every iteration whose request was written and none
    for an iteration whose [WriteTo] failed: such an iteration is counted
    neither as sent nor as dropped. *)
Theorem legacy_event_accounting (icmpInterval : Z) (pingHost : string)
    (envs : list CycleEnv) : forall st st' : State,
  pingLoop icmpInterval pingHost envs st = (Some (Returned tt), st') ->
  exists us, updateChan st' = updateChan st ++ us /\
             List.length us = List.length (filter written envs).
Proof.
  induction envs as [|env rest IH]; intros st st' H.
  - simpl in H. inversion H; subst. exists []. rewrite app_nil_r. auto.
  - simpl in H. destruct (pingCycle _ _ env st) as [r st1] eqn:Ec.
    destruct r as [[[]|c|]|]; try discriminate H.
    apply legacy_pingCycle_events in Ec. destruct Ec as (us1 & Hu1 & Hl1).
    destruct (IH _ _ H) as (us2 & Hu2 & Hl2).
    exists (us1 ++ us2). rewrite Hu2, Hu1, <- app_assoc.
    split; [reflexivity|]. rewrite length_app, Hl1, Hl2. simpl.
    destruct (written env); reflexivity.
Qed.

(** X13. [readLoop] gives up at the latest in the first turn in which the
    ticker has fired: when some turn of the script has the ticker ready,
    the loop has ended (delivered, dropped or with the process exiting)
    within the script. *)
Theorem legacy_readLoop_ends (icmpInterval : Z) (pingHost : string)
    (reads : list ReadAttempt) : forall st : State,
  Exists (fun r => tickerFired r = true) reads ->
  exists res, fst (readLoop icmpInterval pingHost reads st) = Some res.
Proof.
  induction reads as [|a reads IH]; intros st Hex.
  - inversion Hex.
  - simpl. destruct (setReadDeadlineErr a); [simpl; eauto|].
    destruct (tickerFired a) eqn:Ht.
    + destruct (readFromRes a) as [data addr|er]; [|simpl; eauto].
      cbv zeta. destruct (List.length _ <? 8)%nat; [simpl; eauto|].
      destruct (replyMatches _ _ _ _); simpl; eauto.
    + assert (Hrest : Exists (fun r => tickerFired r = true) reads).
      { inversion Hex as [? ? Hh|? ? Ht']; [congruence|exact Ht']. }
      destruct (readFromRes a) as [data addr|er]; [|apply IH; exact Hrest].
      cbv zeta. destruct (List.length _ <? 8)%nat; [simpl; eauto|].
      destruct (replyMatches _ _ _ _); [simpl; eauto|apply IH; exact Hrest].
Qed.

Lemma matchesNow_frame (pingHost : string) (st st0 : State)
    (r : ReadAttempt) :
  buf st0 = buf st -> bodySeq st0 = bodySeq st ->
  matchesNow pingHost st0 r = matchesNow pingHost st r.
Proof.
  intros Hb Hq. unfold matchesNow, replyMatches. rewrite Hb, Hq.
  reflexivity.
Qed.

(** The first turn of [readLoop] on a zeroed buffer, by what it reads. *)
Lemma legacy_readLoop_head (icmpInterval : Z) (pingHost : string)
    (a : ReadAttempt) (rest : list ReadAttempt) (st : State) :
  (8 <= List.length (buf st))%nat -> zeroed (buf st) ->
  setReadDeadlineErr a = None ->
  readLoop icmpInterval pingHost (a :: rest) st =
  let st0 := logCall CallReadFrom
               (logCall (CallSetReadDeadline (nowRead a + icmpInterval)) st) in
  if matchesNow pingHost st a then (Some (Returned true), st0)
  else if tickerFired a then
    (Some (Returned false),
     chanSend {| dropped := true; seqNumber := bodySeq st;
                 rttStart := 0; rttStop := 0 |} st0)
  else readLoop icmpInterval pingHost rest st0.
Proof.
  intros Hlen Hz Hd. simpl. rewrite Hd. unfold matchesNow.
  destruct (readFromRes a) as [data addr|er]; [|reflexivity].
  cbv zeta.
  destruct (Nat.ltb_spec (List.length (readInto data (buf st))) 8)
    as [Hlt|_]; [rewrite readInto_length in Hlt; lia|].
  change (replyMatches (readInto data (buf st)) addr pingHost _)
    with (replyMatches (readInto data (buf st)) addr pingHost st).
  unfold withBuf, logCall. cbn [buf bodySeq calls updateChan].
  rewrite (flush_after_read_zeroed data (buf st) Hz).
  destruct (replyMatches _ _ _ st); reflexivity.
Qed.

(** X14. On the zeroed buffer of [main], [readLoop] leaves through
    [break readLoop] (the request is delivered) exactly when some turn
    reads a datagram that passes the test for the current sequence number
    and every turn before it set its deadline, read nothing that passes,
    and found the ticker not yet fired.  Any number of stale or foreign
    datagrams and failed reads before the matching reply are skipped. *)
Theorem legacy_delivered_iff (icmpInterval : Z) (pingHost : string)
    (reads : list ReadAttempt) : forall st : State,
  (8 <= List.length (buf st))%nat -> zeroed (buf st) ->
  (fst (readLoop icmpInterval pingHost reads st) = Some (Returned true) <->
   exists pre r post,
     reads = pre ++ r :: post /\
     Forall (fun a => setReadDeadlineErr a = None /\
                      matchesNow pingHost st a = false /\
                      tickerFired a = false) pre /\
     setReadDeadlineErr r = None /\ matchesNow pingHost st r = true).
Proof.
  induction reads as [|a reads IH]; intros st Hlen Hz.
  - simpl. split; [intros H; discriminate H|].
    intros (pre & r & post & E & _). destruct pre; discriminate E.
  - destruct (setReadDeadlineErr a) as [e0|] eqn:Hd.
    { simpl. rewrite Hd. simpl. split; [intros H; discriminate H|].
      intros (pre & r & post & E & Hpre & Hr & _).
      destruct pre as [|b pre]; inversion E; subst.
      - congruence.
      - inversion Hpre as [|? ? (Hb & _) _]; subst. congruence. }
    rewrite (legacy_readLoop_head _ _ _ _ _ Hlen Hz Hd). cbv zeta.
    destruct (matchesNow pingHost st a) eqn:Hm.
    { simpl. split; [intros _|reflexivity].
      exists [], a, reads. repeat split; auto. }
    destruct (tickerFired a) eqn:Ht.
    { simpl. split; [intros H; discriminate H|].
      intros (pre & r & post & E & Hpre & _ & Hr).
      destruct pre as [|b pre]; inversion E; subst.
      - congruence.
      - inversion Hpre as [|? ? (_ & _ & Hb) _]; subst. congruence. }
    set (st0 := logCall CallReadFrom
                  (logCall (CallSetReadDeadline (nowRead a + icmpInterval)) st)).
    assert (Hframe : forall r, matchesNow pingHost st0 r
                               = matchesNow pingHost st r).
    { intros r. apply matchesNow_frame; reflexivity. }
    rewrite (IH st0 Hlen Hz). split.
    + intros (pre & r & post & E & Hpre & Hr & Hmr).
      exists (a :: pre), r, post. subst reads.
      split; [reflexivity|]. split; [|rewrite <- Hframe; auto].
      constructor; [auto|].
      eapply Forall_impl; [|exact Hpre]. intros b (H1 & H2 & H3).
      rewrite <- Hframe. auto.
    + intros (pre & r & post & E & Hpre & Hr & Hmr).
      destruct pre as [|b pre]; inversion E; subst; [congruence|].
      exists pre, r, post. split; [reflexivity|].
      split; [|rewrite Hframe; auto].
      inversion Hpre as [|? ? _ Hpre']; subst.
      eapply Forall_impl; [|exact Hpre']. intros c (H1 & H2 & H3).
      rewrite Hframe. auto.
Qed.

(** The test [matchesNow] is the specification's match condition on the
    datagram read, against [icmpBody.Seq]. *)
Lemma matchesNow_iff (pingHost : string) (st : State) (r : ReadAttempt) :
  matchesNow pingHost st r = true <->
  exists data addr,
    readFromRes r = ReadOk data addr /\
    matchCondition (readInto data (buf st)) addr pingHost (bodySeq st).
Proof.
  unfold matchesNow. destruct (readFromRes r) as [data addr|e].
  - rewrite legacy_replyMatches_iff. split.
    + intros H. eauto.
    + intros (d & a & E & H). inversion E; subst. exact H.
  - split; [intros H; discriminate H|].
    intros (d & a & E & _). discriminate E.
Qed.

(** X15. In a run of the older [pingLoop] from its start state the [k]-th
    request built (counting from 0) carries sequence number
    [(k + 1) mod 65536]: numbering starts at 1, and 0 is first used by the
    65536th request. *)
Theorem legacy_sequence_numbers (icmpInterval : Z) (pingHost : string)
    (envs : list CycleEnv) (st' : State) :
  pingLoop icmpInterval pingHost envs mainStart = (Some (Returned tt), st') ->
  requests (calls st') =
    map (fun k => Monitor.echoRequest ((1 + Z.of_nat k) mod 65536))
        (List.seq 0 (List.length envs)).
Proof.
  intros H.
  assert (Hseq : 0 <= bodySeq mainStart <= 65535) by (simpl; lia).
  rewrite (legacy_pingLoop_requests _ _ _ _ _ Hseq H). reflexivity.
Qed.

End LegacyExtras.

Section LegacyBuffer.
Import Go Icmp Legacy.
Context {lib : Library}.

Lemma legacy_readLoop_buffer (icmpInterval : Z) (pingHost : string)
    (reads : list ReadAttempt) : forall st : State,
  (8 <= List.length (buf st))%nat -> zeroed (buf st) ->
  buf (snd (readLoop icmpInterval pingHost reads st)) = buf st /\
  fst (readLoop icmpInterval pingHost reads st) <> Some Panicked.
Proof.
  induction reads as [|a reads IH]; intros st Hlen Hz.
  - simpl. split; [reflexivity|discriminate].
  - destruct (setReadDeadlineErr a) as [e0|] eqn:Hd.
    { simpl. rewrite Hd. simpl. split; [reflexivity|discriminate]. }
    rewrite (legacy_readLoop_head _ _ _ _ _ Hlen Hz Hd). cbv zeta.
    destruct (matchesNow pingHost st a);
      [simpl; split; [reflexivity|discriminate]|].
    destruct (tickerFired a);
      [simpl; split; [reflexivity|discriminate]|].
    apply (IH (logCall CallReadFrom
                 (logCall (CallSetReadDeadline (nowRead a + icmpInterval)) st)));
      assumption.
Qed.

Lemma legacy_pingCycle_buffer (icmpInterval : Z) (pingHost : string)
    (env : CycleEnv) (st : State) :
  (8 <= List.length (buf st))%nat -> zeroed (buf st) ->
  buf (snd (pingCycle icmpInterval pingHost env st)) = buf st /\
  fst (pingCycle icmpInterval pingHost env st) <> Some Panicked.
Proof.
  intros Hlen Hz. unfold pingCycle.
  destruct (legacy_advanceSeq_frame st) as (_ & _ & Hb).
  destruct (Marshal _); [|simpl; split; [exact Hb|discriminate]].
  destruct (setWriteDeadlineErr env); [simpl; split; [exact Hb|discriminate]|].
  destruct (writeToErr env); [simpl; split; [exact Hb|discriminate]|].
  match goal with
  | |- context [readLoop _ _ _ ?s] =>
      destruct (legacy_readLoop_buffer icmpInterval pingHost (reads env) s)
        as [Hrb Hrp];
      [simpl; rewrite Hb; exact Hlen | simpl; rewrite Hb; exact Hz |];
      destruct (readLoop icmpInterval pingHost (reads env) s) as [r st1]
  end.
  simpl in Hrb, Hrp. rewrite Hb in Hrb.
  destruct r as [[[|]|c|]|]; simpl; split;
    try exact Hrb; try discriminate; try (exfalso; apply Hrp; reflexivity).
Qed.

(** X16. In the older generation, too, the receive buffer holds 1500 zero
    bytes whenever [pingLoop] starts an iteration, and the loop never
    panics on [buf[6]] or [buf[7]]. *)
Theorem legacy_buffer_stays_zeroed (icmpInterval : Z) (pingHost : string)
    (envs : list CycleEnv) :
  buf (snd (pingLoop icmpInterval pingHost envs mainStart)) =
    repeat 0 1500%nat /\
  fst (pingLoop icmpInterval pingHost envs mainStart) <> Some Panicked.
Proof.
  assert (Hgen : forall st : State,
    (8 <= List.length (buf st))%nat -> zeroed (buf st) ->
    buf (snd (pingLoop icmpInterval pingHost envs st)) = buf st /\
    fst (pingLoop icmpInterval pingHost envs st) <> Some Panicked).
  { induction envs as [|env rest IH]; intros st Hlen Hz.
    - simpl. split; [reflexivity|discriminate].
    - simpl.
      destruct (legacy_pingCycle_buffer icmpInterval pingHost env st Hlen Hz)
        as [Hb Hp].
      destruct (pingCycle icmpInterval pingHost env st) as [r st1].
      simpl in Hb, Hp.
      destruct r as [[[]|c|]|]; simpl;
        try (split; [exact Hb|discriminate]).
      + destruct (IH st1) as [Hb1 Hp1];
          [rewrite Hb; exact Hlen|rewrite Hb; exact Hz|].
        rewrite Hb1, Hb. split; [reflexivity|exact Hp1].
      + exfalso. apply Hp. reflexivity. }
  apply Hgen.
  - unfold mainStart. cbn [buf]. rewrite repeat_length.
    apply Nat.leb_le. vm_compute. reflexivity.
  - unfold mainStart. cbn [buf]. apply zeroed_repeat.
Qed.

End LegacyBuffer.

(** ** The pro-bing generation *)

Section ProBingFacts.
Import Go ProBing.

Lemma Milliseconds_small (d : Z) :
  0 <= d < Millisecond -> Milliseconds d = 0.
Proof.
  unfold Milliseconds, quot64, Millisecond. intros H.
  rewrite Z.quot_small by lia. reflexivity.
Qed.

(** X17. The round-trip gauges of the pro-bing generation carry whole
    milliseconds: for statistics whose minimum, mean, maximum and standard
    deviation are all below one millisecond, the four gauges are set to
    0. *)
Theorem probing_sub_millisecond_is_zero (s : Statistics) :
  0 <= MinRtt s < Millisecond ->
  0 <= AvgRtt s < Millisecond ->
  0 <= MaxRtt s < Millisecond ->
  0 <= StdDevRtt s < Millisecond ->
  roundTripMin (gaugesOf s) = 0%float /\
  roundTripAvg (gaugesOf s) = 0%float /\
  roundTripMax (gaugesOf s) = 0%float /\
  roundTripDev (gaugesOf s) = 0%float.
Proof.
  intros H1 H2 H3 H4. unfold gaugesOf. simpl.
  rewrite !Milliseconds_small by assumption. repeat split.
Qed.

End ProBingFacts.

(** ** Concrete runs for the further properties *)

Section ExtraRuns.
Import Go Icmp Fixtures.

Lemma cycle_outcome_witness :
  fst (Monitor.cycle (lib := wireLib) second host
         (cycleAt 0 5000000 (recvReply 0)) Monitor.mainStart) = Returned tt /\
  listenCount
    (Monitor.calls
       (snd (Monitor.cycle (lib := wireLib) second host
               (cycleAt 0 5000000 (recvReply 0)) Monitor.mainStart))) = 1%nat.
Proof.
  apply (cycle_outcome (lib := wireLib) second host
           (cycleAt 0 5000000 (recvReply 0)) Monitor.mainStart).
  apply Nat.leb_le. vm_compute. reflexivity.
Defined.

Lemma mainLoop_completes_witness :
  exists st',
    Monitor.mainLoop (lib := wireLib) second host threeCycles
                     Monitor.mainStart = (Returned tt, st').
Proof.
  apply (mainLoop_completes (lib := wireLib) second host threeCycles
           Monitor.mainStart).
  - intros s. eexists. reflexivity.
  - repeat constructor.
  - apply Nat.leb_le. vm_compute. reflexivity.
Defined.

Lemma event_fields_witness :
  let st' := snd (Monitor.mainLoop (lib := wireLib) second host threeCycles
                                   Monitor.mainStart) in
  map Monitor.seqNumber (Monitor.updateChan st') = [1; 2; 3] /\
  map Monitor.rttStart (Monitor.updateChan st') =
    map Monitor.nowStart threeCycles /\
  map Monitor.rttStop (Monitor.updateChan st') =
    map Monitor.nowStop threeCycles.
Proof.
  apply (event_fields (lib := wireLib) second host threeCycles).
  vm_compute. reflexivity.
Defined.

Lemma window_mean_accuracy_witness :
  let us := [delivered 10000000; lost; delivered 20000001;
             delivered 30000000] in
  let w := Monitor.window us Monitor.aggStart in
  Monitor.rttAvgCnt w = 3 /\
  Monitor.rttAvg w * 3 <= Monitor.sumZ (Monitor.samples us) /\
  2 * (Monitor.sumZ (Monitor.samples us) - Monitor.rttAvg w * 3) <= 3 * (3 - 1) /\
  Monitor.rttMin w <= Monitor.rttAvg w <= Monitor.rttMax w.
Proof.
  apply (window_mean_accuracy 30000000
           [delivered 10000000; lost; delivered 20000001;
            delivered 30000000]).
  - cbv [Monitor.samples filter map delivered lost Monitor.received
         Monitor.rttOf Monitor.rttStop Monitor.rttStart].
    repeat (constructor; [vm_compute; split; discriminate|]). constructor.
  - cbv [Monitor.samples filter map delivered lost Monitor.received
         Monitor.rttOf Monitor.rttStop Monitor.rttStart List.length]. lia.
  - cbv [Monitor.samples filter map delivered lost Monitor.received
         Monitor.rttOf Monitor.rttStop Monitor.rttStart List.length].
    vm_compute. discriminate.
Defined.

Lemma flush_publishes_counts_witness :
  exists p,
    fst (Monitor.aggregator
           (map Monitor.Update [delivered 10000000; lost] ++ [Monitor.Tick])
           Monitor.aggStart) = [p] /\
    Monitor.totalPackets p = float64 2 /\
    Monitor.droppedPackets p = float64 (2 - 1) /\
    Monitor.packetLossPercentage p =
      (Monitor.droppedPackets p / Monitor.totalPackets p)%float.
Proof.
  apply (flush_publishes_counts [delivered 10000000; lost]).
  vm_compute. discriminate.
Defined.

Lemma legacy_event_accounting_witness :
  let envs := [legacyWriteFails; legacyCycle [attempt (echoReply 2) false]] in
  let st' := snd (Legacy.pingLoop (lib := wireLib) second host envs
                                  Legacy.mainStart) in
  exists us,
    Legacy.updateChan st' = Legacy.updateChan Legacy.mainStart ++ us /\
    List.length us = 1%nat.
Proof.
  apply (legacy_event_accounting (lib := wireLib) second host
           [legacyWriteFails; legacyCycle [attempt (echoReply 2) false]]
           Legacy.mainStart).
  vm_compute. reflexivity.
Defined.

Lemma legacy_readLoop_ends_witness :
  exists res,
    fst (Legacy.readLoop (lib := wireLib) second host
           [attempt (echoReply 7) false; attempt (echoReply 7) true]
           Legacy.mainStart) = Some res.
Proof.
  apply (legacy_readLoop_ends (lib := wireLib) second host
           [attempt (echoReply 7) false; attempt (echoReply 7) true]
           Legacy.mainStart).
  right. left. reflexivity.
Defined.

Lemma legacy_delivered_iff_witness :
  let reads := [attempt (echoReply 5) false; attempt (echoReply 0) false] in
  fst (Legacy.readLoop (lib := wireLib) second host reads Legacy.mainStart)
    = Some (Returned true) <->
  exists pre r post,
    reads = pre ++ r :: post /\
    Forall (fun a => Legacy.setReadDeadlineErr a = None /\
                     Legacy.matchesNow (lib := wireLib) host
                       Legacy.mainStart a = false /\
                     Legacy.tickerFired a = false) pre /\
    Legacy.setReadDeadlineErr r = None /\
    Legacy.matchesNow (lib := wireLib) host Legacy.mainStart r = true.
Proof.
  apply (legacy_delivered_iff (lib := wireLib) second host
           [attempt (echoReply 5) false; attempt (echoReply 0) false]
           Legacy.mainStart).
  - apply Nat.leb_le. vm_compute. reflexivity.
  - unfold zeroed. vm_compute. reflexivity.
Defined.

Lemma legacy_sequence_numbers_witness :
  let envs := [legacyCycle [attempt (echoReply 1) false];
               legacyCycle [attempt (echoReply 2) false]] in
  requests
    (Legacy.calls
       (snd (Legacy.pingLoop (lib := wireLib) second host envs
                             Legacy.mainStart))) =
  [Monitor.echoRequest 1; Monitor.echoRequest 2].
Proof.
  apply (legacy_sequence_numbers (lib := wireLib) second host
           [legacyCycle [attempt (echoReply 1) false];
            legacyCycle [attempt (echoReply 2) false]]).
  vm_compute. reflexivity.
Defined.

Lemma probing_sub_millisecond_is_zero_witness :
  ProBing.roundTripMin (ProBing.gaugesOf fastStats) = 0%float /\
  ProBing.roundTripAvg (ProBing.gaugesOf fastStats) = 0%float /\
  ProBing.roundTripMax (ProBing.gaugesOf fastStats) = 0%float /\
  ProBing.roundTripDev (ProBing.gaugesOf fastStats) = 0%float.
Proof.
  apply (probing_sub_millisecond_is_zero fastStats);
    vm_compute; (split; [discriminate|reflexivity]).
Defined.

End ExtraRuns.

(* ================================================================== *)
(** * Properties stated for both hand-written generations *)

(** ** The flush: what it publishes and what it resets *)

Section FlushBothGenerations.
Import Go Monitor Spec.



(** A window of the older aggregator is the window of the newer one on
    the same events. *)
Lemma legacy_window_agrees (us : list Legacy.packetUpdate) :
  forall s : Legacy.AggState,
  Legacy.toMonitorAgg (Legacy.window us s) =
  window (map Legacy.toMonitorUpdate us) (Legacy.toMonitorAgg s).
Proof.
  induction us as [|u us IH]; intros s; [reflexivity|].
  simpl. unfold Legacy.window in IH. unfold window in IH.
  rewrite IH, legacy_onUpdate_agrees. reflexivity.
Qed.

Lemma legacy_countReceived_agrees (us : list Legacy.packetUpdate) :
  countReceived (map Legacy.toMonitorUpdate us) = Legacy.countReceived us.
Proof.
  unfold countReceived, Legacy.countReceived. f_equal.
  induction us as [|u us IH]; [reflexivity|].
  simpl. destruct (Legacy.dropped u); simpl; rewrite IH; reflexivity.
Qed.




End FlushBothGenerations.

(** ** The minimum published for a window without a reply *)

Section MinBothGenerations.
Import Go Monitor.

(** C5, amended. For a window in which no packet was received, the flush
    of the [sendPing] generation replaces the start value [MaxInt64] of
    [rttMin] by 0 and publishes a minimum of 0 ms; the older flush has no
    such guard and publishes the start value as it converts, about
    9.2e12 ms, which is not 0. *)
Theorem no_reception_window_min (us : list packetUpdate)
    (ls : list Legacy.packetUpdate) :
  countReceived us = 0 ->
  Legacy.countReceived ls = 0 ->
  (flushedMin (window us aggStart) = 0 /\
   roundTripMin (fst (onTick (window us aggStart))) = 0%float) /\
  (Legacy.rttMin (Legacy.window ls Legacy.aggStart) = MaxInt64 /\
   roundTripMin (fst (Legacy.onTick (Legacy.window ls Legacy.aggStart)))
     = msecFl MaxInt64 /\
   PrimFloat.ltb 9e12 (msecFl MaxInt64) = true).
Proof.
  intros Hu Hl. split.
  - destruct (window_all_lost us aggStart Hu) as (Hmin & _ & _).
    assert (E : flushedMin (window us aggStart) = 0).
    { unfold flushedMin. rewrite Hmin. reflexivity. }
    split; [exact E|]. unfold onTick. simpl. rewrite E. reflexivity.
  - assert (Hmin : Legacy.rttMin (Legacy.window ls Legacy.aggStart)
                   = MaxInt64).
    { pose proof (legacy_window_agrees ls Legacy.aggStart) as Hw.
      rewrite <- legacy_countReceived_agrees in Hl.
      destruct (window_all_lost (map Legacy.toMonitorUpdate ls) aggStart Hl)
        as (H & _ & _).
      change (Legacy.toMonitorAgg Legacy.aggStart) with aggStart in Hw.
      rewrite <- Hw in H. exact H. }
    split; [exact Hmin|]. split; [|reflexivity].
    unfold Legacy.onTick. cbn [fst roundTripMin]. rewrite Hmin.
    reflexivity.
Qed.

Lemma no_reception_window_min_witness :
  (flushedMin (window [Fixtures.lost; Fixtures.lost] aggStart) = 0 /\
   roundTripMin
     (fst (onTick (window [Fixtures.lost; Fixtures.lost] aggStart)))
     = 0%float) /\
  (Legacy.rttMin (Legacy.window [Fixtures.legacyLost] Legacy.aggStart)
     = MaxInt64 /\
   roundTripMin
     (fst (Legacy.onTick
             (Legacy.window [Fixtures.legacyLost] Legacy.aggStart)))
     = msecFl MaxInt64 /\
   PrimFloat.ltb 9e12 (msecFl MaxInt64) = true).
Proof.
  apply (no_reception_window_min [Fixtures.lost; Fixtures.lost]
           [Fixtures.legacyLost]); reflexivity.
Defined.

End MinBothGenerations.

(** ** Sequence numbers *)

Section SequenceBothGenerations.
Import Go Icmp Spec Fixtures.

(** Requests numbered on from [o] modulo 65536 wrap around. *)
Lemma numbered_wrapsAround (o : Z) (n : nat) :
  wrapsAround
    (map (fun k => Monitor.echoRequest ((o + Z.of_nat k) mod 65536))
         (List.seq 0 n)).
Proof.
  split.
  - intros k m Hk. apply nth_error_map_seq in Hk. destruct Hk as [Hm _].
    exists ((o + Z.of_nat k) mod 65536). split; [exact Hm|].
    pose proof (Z.mod_pos_bound (o + Z.of_nat k) 65536). lia.
  - intros k s s' H0 H1. apply nth_error_map_seq in H0, H1.
    destruct H0 as [H0 _], H1 as [H1 _].
    apply echoRequest_inj in H0, H1.
    assert (Hs' : s' = (s + 1) mod 65536).
    { subst s s'. rewrite Nat2Z.inj_succ, Zplus_mod_idemp_l. f_equal; lia. }
    split; [exact Hs'|]. intros Hs. rewrite Hs', Hs. reflexivity.
Qed.

Lemma legacy_pingLoop_events {lib : Library} (icmpInterval : Z)
    (pingHost : string) (envs : list Legacy.CycleEnv) :
  forall st st' : Legacy.State,
  Legacy.pingLoop icmpInterval pingHost envs st = (Some (Returned tt), st') ->
  exists us, Legacy.updateChan st' = Legacy.updateChan st ++ us /\
             List.length us = List.length (filter Legacy.written envs).
Proof.
  induction envs as [|env rest IH]; intros st st' H.
  - simpl in H. inversion H; subst. exists []. rewrite app_nil_r. auto.
  - simpl in H. destruct (Legacy.pingCycle _ _ env st) as [r st1] eqn:Ec.
    destruct r as [[[]|c|]|]; try discriminate H.
    apply legacy_pingCycle_events in Ec. destruct Ec as (us1 & Hu1 & Hl1).
    destruct (IH _ _ H) as (us2 & Hu2 & Hl2).
    exists (us1 ++ us2). rewrite Hu2, Hu1, <- app_assoc.
    split; [reflexivity|]. rewrite length_app, Hl1, Hl2. simpl.
    destruct (Legacy.written env); reflexivity.
Qed.

(** An iteration of the older [pingLoop] that gets no reply completes,
    from any state. *)
Lemma legacy_timeout_cycle (st : Legacy.State) :
  exists st',
    Legacy.pingCycle (lib := wireLib) second host legacyTimeout st =
    (Some (Returned tt), st').
Proof. eexists. reflexivity. Qed.

Lemma legacy_timeouts_complete (n : nat) : forall st : Legacy.State,
  exists st',
    Legacy.pingLoop (lib := wireLib) second host (repeat legacyTimeout n) st =
    (Some (Returned tt), st').
Proof.
  induction n as [|n IH]; intros st.
  - exists st. reflexivity.
  - destruct (legacy_timeout_cycle st) as [st1 E].
    change (repeat legacyTimeout (S n))
      with (legacyTimeout :: repeat legacyTimeout n).
    cbn [Legacy.pingLoop]. rewrite E. apply IH.
Qed.

(** C7, as stated, fails on the older [pingLoop]: in a run of 65537
    iterations (none of which gets a reply) the 65537th request carries
    sequence number 1, not 0. *)
Lemma legacy_65537th_request_carries_1 :
  exists st',
    Legacy.pingLoop (lib := wireLib) second host
      (repeat legacyTimeout (Z.to_nat 65537)) Legacy.mainStart =
      (Some (Returned tt), st') /\
    nth_error (requests (Legacy.calls st')) (Z.to_nat 65536) =
      Some (Monitor.echoRequest 1) /\
    Monitor.echoRequest 1 <> Monitor.echoRequest 0.
Proof.
  destruct (legacy_timeouts_complete (Z.to_nat 65537) Legacy.mainStart)
    as [st' E].
  exists st'. split; [exact E|]. split.
  - assert (Hseq : 0 <= Legacy.bodySeq Legacy.mainStart <= 65535)
      by (simpl; lia).
    rewrite (legacy_pingLoop_requests _ _ _ _ _ Hseq E).
    rewrite repeat_length.
    change (requests (Legacy.calls Legacy.mainStart)) with (@nil Message).
    cbn [app Legacy.bodySeq Legacy.mainStart].
    rewrite nth_error_map, nth_error_seq.
    assert (Hlt : Nat.ltb (Z.to_nat 65536) (Z.to_nat 65537) = true)
      by (vm_compute; reflexivity).
    rewrite Hlt. cbn [option_map Nat.add]. rewrite Z2Nat.id by lia.
    reflexivity.
  - intros H. apply echoRequest_inj in H. discriminate H.
Qed.

(** C7, amended. In both generations the requests of a run carry sequence
    numbers within 0..65535, each the successor modulo 65536 of the one
    before (65535 is followed by 0), and a request is built only after the
    iteration before it has ended.  The loop of [main] numbers from 0: its
    [k]-th request (counting from 0) carries [k mod 65536], the 65537th
    carries 0 again, and every completed iteration has sent its event.  The
    older [pingLoop] numbers from 1: its [k]-th request carries
    [(1 + k) mod 65536], 0 is first carried by the 65536th request and the
    65537th carries 1; every iteration whose request was written has sent
    its event. *)
Theorem sequence_numbers_both_generations {lib : Library}
    (icmpInterval : Z) (pingHost : string) :
  (forall (envs : list Monitor.CycleEnv) (st' : Monitor.State),
     Monitor.mainLoop icmpInterval pingHost envs Monitor.mainStart
       = (Returned tt, st') ->
     let reqs := requests (Monitor.calls st') in
     reqs = map (fun k => Monitor.echoRequest (Z.of_nat k mod 65536))
                (List.seq 0 (List.length envs)) /\
     wrapsAround reqs /\
     (forall m, nth_error reqs (Z.to_nat 65536) = Some m ->
        m = Monitor.echoRequest 0) /\
     List.length (Monitor.updateChan st') = List.length envs) /\
  (forall (envs : list Legacy.CycleEnv) (st' : Legacy.State),
     Legacy.pingLoop icmpInterval pingHost envs Legacy.mainStart
       = (Some (Returned tt), st') ->
     let reqs := requests (Legacy.calls st') in
     reqs = map (fun k => Monitor.echoRequest ((1 + Z.of_nat k) mod 65536))
                (List.seq 0 (List.length envs)) /\
     wrapsAround reqs /\
     (forall m, nth_error reqs (Z.to_nat 65535) = Some m ->
        m = Monitor.echoRequest 0) /\
     (forall m, nth_error reqs (Z.to_nat 65536) = Some m ->
        m = Monitor.echoRequest 1) /\
     List.length (Legacy.updateChan st')
       = List.length (filter Legacy.written envs)).
Proof.
  split.
  - intros envs st' H reqs.
    assert (Hstart : 0 <= Monitor.seq Monitor.mainStart <= 65536)
      by (simpl; lia).
    destruct (mainLoop_requests _ _ _ _ _ Hstart H) as [_ Hreq].
    assert (E : reqs = map (fun k => Monitor.echoRequest
                                       ((0 + Z.of_nat k) mod 65536))
                           (List.seq 0 (List.length envs))).
    { subst reqs. rewrite Hreq. reflexivity. }
    split; [exact E|]. rewrite E.
    split; [apply numbered_wrapsAround|]. split.
    + intros m Hm. apply nth_error_map_seq in Hm. destruct Hm as [Hm _].
      rewrite Hm, Z2Nat.id by lia. reflexivity.
    + destruct (mainLoop_events _ _ _ _ _ H) as (us & Hus & Hlen).
      rewrite Hus. simpl. exact Hlen.
  - intros envs st' H reqs.
    assert (Hstart : 0 <= Legacy.bodySeq Legacy.mainStart <= 65535)
      by (simpl; lia).
    assert (E : reqs = map (fun k => Monitor.echoRequest
                                       ((1 + Z.of_nat k) mod 65536))
                           (List.seq 0 (List.length envs))).
    { subst reqs. rewrite (legacy_pingLoop_requests _ _ _ _ _ Hstart H).
      reflexivity. }
    split; [exact E|]. rewrite E.
    split; [apply numbered_wrapsAround|]. split; [|split].
    + intros m Hm. apply nth_error_map_seq in Hm. destruct Hm as [Hm _].
      rewrite Hm, Z2Nat.id by lia. reflexivity.
    + intros m Hm. apply nth_error_map_seq in Hm. destruct Hm as [Hm _].
      rewrite Hm, Z2Nat.id by lia. reflexivity.
    + destruct (legacy_pingLoop_events _ _ _ _ _ H) as (us & Hus & Hlen).
      rewrite Hus. simpl. exact Hlen.
Qed.

Lemma sequence_numbers_both_generations_witness :
  requests
    (Monitor.calls
       (snd (Monitor.mainLoop (lib := wireLib) second host threeCycles
                              Monitor.mainStart))) =
    [Monitor.echoRequest 0; Monitor.echoRequest 1; Monitor.echoRequest 2] /\
  requests
    (Legacy.calls
       (snd (Legacy.pingLoop (lib := wireLib) second host
               [legacyTimeout; legacyCycle [attempt (echoReply 2) false]]
               Legacy.mainStart))) =
    [Monitor.echoRequest 1; Monitor.echoRequest 2].
Proof.
  destruct (sequence_numbers_both_generations (lib := wireLib) second host)
    as [HM HL].
  split.
  - apply (HM threeCycles). vm_compute. reflexivity.
  - apply (HL [legacyTimeout; legacyCycle [attempt (echoReply 2) false]]).
    vm_compute. reflexivity.
Defined.

End SequenceBothGenerations.

Section FlushRuns.
Import Go Monitor Spec Fixtures.


End FlushRuns.
